(** * VisualizationSubnode: event subscription, frame correlation and
      render dispatch

    A shallow embedding of
    [modules/perception/obstacle/onboard/visualization_subnode.cc].

    Conventions.
    - [EventID] is the C++ [int]; it is a [Z] and the only place where a
      value is produced by conversion ([atoi]) writes the 32-bit wrap out.
    - [double] timestamps are binary64 primitive floats; the code only
      copies them.
    - [std::map<std::string, std::string>] is a [gmap string string]; the
      keyed shared-data stores are [gmap string (option payload)], the
      inner [option] being the [shared_ptr] that may be null.
    - Member functions take the object as an explicit record and return the
      updated record.  Calls into collaborators whose effects matter for
      the properties below (store lookups, renderer calls) are returned as
      a chronological list of [Action]s.
    - Logging ([AERROR], [AINFO], [LOG(INFO)]) has no effect on the modelled
      state and is left out.
    - [InitInternal] binds the store pointers and the visualizer (see
      Initialization of the object); the functions of the dispatch cycle
      start from an object on which it has succeeded.
      [GetFrameData] follows a store pointer only under the toggle under
      which [InitInternal] has bound it. *)

From Stdlib Require Import ZArith List Bool String Ascii Lia Floats.
From stdpp Require Import base option list gmap strings.

Local Open Scope string_scope.
Local Open Scope list_scope.
Local Open Scope Z_scope.

(** ** Data model *)

Definition EventID := Z.

(** [struct Event] of the event manager (declared outside this file): the
    fields this file reads.  [default_Event] is the value of the local
    [Event event;] of [SubscribeEvents], its members zero and empty; no
    general statement below depends on these values. *)
Record Event := mkEvent {
  event_id : EventID;
  timestamp : float;
  reserve : string
}.

Definition default_Event : Event :=
  {| event_id := 0; timestamp := 0%float; reserve := "" |}.

Record EventMeta := mkEventMeta {
  meta_event_id : EventID;
  meta_name : string
}.

Inductive ErrorCode := OK | PERCEPTION_ERROR.

Record Status := mkStatus {
  code : ErrorCode;
  error_message : string
}.

Definition Status_OK : Status := {| code := OK; error_message := "" |}.

(** Payload types of the shared-data stores. *)
Definition Mat := list Z.
Definition Matrix4d := list float.
Definition ObjectPtr := Z.

Record CameraItem := mkCameraItem {
  image_src_mat : Mat
}.

Record SensorObjects := mkSensorObjects {
  objects : list ObjectPtr;
  sensor2world_pose : Matrix4d;
  cipv_index : Z
}.

Record FusionItem := mkFusionItem {
  obstacles : list ObjectPtr
}.

(** gflags read by this file. *)
Record Flags := mkFlags {
  FLAGS_show_radar_objects : bool;
  FLAGS_show_camera_objects : bool;
  FLAGS_show_camera_objects2d : bool;
  FLAGS_show_camera_parsing : bool;
  FLAGS_show_fused_objects : bool;
  FLAGS_frame_visualizer : string
}.

Definition show_camera (f : Flags) : bool :=
  FLAGS_show_camera_objects f || FLAGS_show_camera_objects2d f ||
  FLAGS_show_camera_parsing f.

(** ** atoi *)

Module Atoi.

Definition isspace (c : ascii) : bool :=
  let n := Z.of_nat (nat_of_ascii c) in
  (n =? 32) || ((9 <=? n) && (n <=? 13)).

Definition digit (c : ascii) : option Z :=
  let n := Z.of_nat (nat_of_ascii c) in
  if (48 <=? n) && (n <=? 57) then Some (n - 48) else None.

Fixpoint skip_space (s : string) : string :=
  match s with
  | String c r => if isspace c then skip_space r else s
  | EmptyString => s
  end.

Fixpoint digits (s : string) (acc : Z) : Z :=
  match s with
  | String c r =>
      match digit c with
      | Some d => digits r (10 * acc + d)
      | None => acc
      end
  | EmptyString => acc
  end.

Definition LONG_MAX : Z := 2 ^ 63 - 1.
Definition LONG_MIN : Z := - 2 ^ 63.

Definition sign (s : string) : bool * string :=
  match s with
  | String c r =>
      if Ascii.eqb c "-" then (true, r)
      else if Ascii.eqb c "+" then (false, r)
      else (false, s)
  | EmptyString => (false, s)
  end.

(** [strtol(s, NULL, 10)] on an LP64 target: leading white space, an
    optional sign, the longest run of decimal digits, saturating. *)
Definition strtol (s : string) : Z :=
  let '(neg, s) := sign (skip_space s) in
  let v := digits s 0 in
  let v := if neg then - v else v in
  Z.max LONG_MIN (Z.min LONG_MAX v).

(** Conversion of a [long] to the 32-bit [int]. *)
Definition to_int (z : Z) : Z := (z + 2 ^ 31) mod 2 ^ 32 - 2 ^ 31.

Definition atoi (s : string) : Z := to_int (strtol s).

(** No decimal number starts the string once white space and one sign
    are skipped. *)
Definition no_number (s : string) : bool :=
  match snd (sign (skip_space s)) with
  | String c _ => match digit c with Some _ => false | None => true end
  | EmptyString => true
  end.

End Atoi.

(** ** The frame snapshot *)

Inductive PoseType := IMAGE_CONTINUOUS | NONE_CONTINUOUS.

(** Modelled from the spec: [FrameContent] (frame_content.h is not part of
    this file).  The snapshot "holds the latest image, camera
    detections + pose, radar detections, fused obstacles, [...] an immutable
    camera-to-vehicle pose (set once at init), and an authoritative frame
    timestamp updated only by Driving-kind events"; each setter replaces
    the field it names and nothing else. *)
Record FrameContent := mkFrameContent {
  pose_type : PoseType;
  camera2car_pose : Matrix4d;
  image_content : option (float * Mat);
  camera_content : option (float * Matrix4d * list ObjectPtr);
  radar_content : option (float * list ObjectPtr);
  fusion_content : option (float * list ObjectPtr);
  frame_timestamp : float
}.

Definition set_pose_type (t : PoseType) (c : FrameContent) : FrameContent :=
  mkFrameContent t (camera2car_pose c) (image_content c) (camera_content c)
    (radar_content c) (fusion_content c) (frame_timestamp c).

Definition set_camera2car_pose (p : Matrix4d) (c : FrameContent)
  : FrameContent :=
  mkFrameContent (pose_type c) p (image_content c) (camera_content c)
    (radar_content c) (fusion_content c) (frame_timestamp c).

Definition set_image_content (ts : float) (image : Mat) (c : FrameContent)
  : FrameContent :=
  mkFrameContent (pose_type c) (camera2car_pose c) (Some (ts, image))
    (camera_content c) (radar_content c) (fusion_content c)
    (frame_timestamp c).

Definition set_camera_content (ts : float) (pose : Matrix4d)
    (objs : list ObjectPtr) (c : FrameContent) : FrameContent :=
  mkFrameContent (pose_type c) (camera2car_pose c) (image_content c)
    (Some (ts, pose, objs)) (radar_content c) (fusion_content c)
    (frame_timestamp c).

Definition set_radar_content (ts : float) (objs : list ObjectPtr)
    (c : FrameContent) : FrameContent :=
  mkFrameContent (pose_type c) (camera2car_pose c) (image_content c)
    (camera_content c) (Some (ts, objs)) (fusion_content c)
    (frame_timestamp c).

Definition set_fusion_content (ts : float) (objs : list ObjectPtr)
    (c : FrameContent) : FrameContent :=
  mkFrameContent (pose_type c) (camera2car_pose c) (image_content c)
    (camera_content c) (radar_content c) (Some (ts, objs))
    (frame_timestamp c).

Definition update_timestamp (ts : float) (c : FrameContent) : FrameContent :=
  mkFrameContent (pose_type c) (camera2car_pose c) (image_content c)
    (camera_content c) (radar_content c) (fusion_content c) ts.

(** ** Shared-data stores *)

Inductive StoreName :=
| RadarObjectData
| CameraObjectData
| CIPVObjectData
| FusionSharedData
| CameraSharedData.

(** The five stores the member pointers [radar_object_data_],
    [camera_object_data_], ... refer to.  They are filled by other
    subnodes and only read here. *)
Record SharedData := mkSharedData {
  radar_object_data_ : gmap string (option SensorObjects);
  camera_object_data_ : gmap string (option SensorObjects);
  cipv_object_data_ : gmap string (option SensorObjects);
  fusion_data_ : gmap string (option FusionItem);
  camera_shared_data_ : gmap string (option CameraItem)
}.

(** [store->Get(key, &ptr)]: the returned flag and the pointer written. *)
Definition Get {A} (store : gmap string (option A)) (key : string)
  : bool * option A :=
  match store !! key with
  | Some ptr => (true, ptr)
  | None => (false, None)
  end.

(** ** Observable calls into collaborators

    A lookup on a store, with its key, and the three calls on
    [frame_visualizer_].  [update_camera_system] and [render] receive
    [&content_]; the snapshot they are given is recorded, and they are
    taken to read it only. *)

Inductive Action :=
| SharedGet (store : StoreName) (key : string)
| Visualizer_init
| Visualizer_update_camera_system (content : FrameContent)
| Visualizer_render (content : FrameContent).

Definition is_init (a : Action) : bool :=
  match a with Visualizer_init => true | _ => false end.

Definition is_get_on (st : StoreName) (a : Action) : bool :=
  match a, st with
  | SharedGet RadarObjectData _, RadarObjectData
  | SharedGet CameraObjectData _, CameraObjectData
  | SharedGet CIPVObjectData _, CIPVObjectData
  | SharedGet FusionSharedData _, FusionSharedData
  | SharedGet CameraSharedData _, CameraSharedData => true
  | _, _ => false
  end.

(** Number of lookups a trace performs on one store. *)
Definition lookups (st : StoreName) (tr : list Action) : nat :=
  length (filter (fun a => is_get_on st a = true) tr).

Definition count_init (tr : list Action) : nat :=
  length (filter (fun a => is_init a = true) tr).

(** The snapshots handed to [render], in call order. *)
Fixpoint renders (tr : list Action) : list FrameContent :=
  match tr with
  | [] => []
  | Visualizer_render c :: tr => c :: renders tr
  | _ :: tr => renders tr
  end.

(** ** The event manager *)

(** One FIFO of events per registered identifier. *)
Abbreviation EventManager := (gmap Z (list Event)).

(** A call either waits for ever or returns its flag, the event in
    [*event] and the event manager it leaves. *)
Inductive SubscribeResult :=
| Waits
| Result (ok : bool) (event : Event) (em : EventManager).

(** Modelled from the spec: the event bus ([EventManager::Subscribe] is
    declared in event_manager.h, not in this file).  It "must support
    both a blocking single-get and a non-blocking drain-until-empty
    mode": a subscribe on an unregistered identifier fails, a
    non-blocking one on an empty queue fails as well, and a blocking one
    on an empty queue waits.  A failing call leaves [*event] as it
    was. *)
Definition Subscribe (em : EventManager) (id : EventID)
    (event : Event) (nonblocking : bool) : SubscribeResult :=
  match em !! id with
  | None => Result false event em
  | Some [] => if nonblocking then Result false event em else Waits
  | Some (e :: q) => Result true e (<[id := q]> em)
  end.

(** ** The subnode object *)

Record VisualizationSubnode := mkNode {
  reserve_ : string;
  sub_meta_events_ : list EventMeta;
  vis_driven_event_id_ : EventID;
  radar_event_id_ : EventID;
  camera_event_id_ : EventID;
  cipv_event_id_ : EventID;
  fusion_event_id_ : EventID;
  motion_event_id_ : EventID;
  init_ : bool;
  content_ : FrameContent
}.

Definition with_vis_driven_event_id (v : EventID) (n : VisualizationSubnode) :=
  mkNode (reserve_ n) (sub_meta_events_ n) v (radar_event_id_ n)
    (camera_event_id_ n) (cipv_event_id_ n) (fusion_event_id_ n)
    (motion_event_id_ n) (init_ n) (content_ n).

Definition with_radar_event_id (v : EventID) (n : VisualizationSubnode) :=
  mkNode (reserve_ n) (sub_meta_events_ n) (vis_driven_event_id_ n) v
    (camera_event_id_ n) (cipv_event_id_ n) (fusion_event_id_ n)
    (motion_event_id_ n) (init_ n) (content_ n).

Definition with_camera_event_id (v : EventID) (n : VisualizationSubnode) :=
  mkNode (reserve_ n) (sub_meta_events_ n) (vis_driven_event_id_ n)
    (radar_event_id_ n) v (cipv_event_id_ n) (fusion_event_id_ n)
    (motion_event_id_ n) (init_ n) (content_ n).

Definition with_cipv_event_id (v : EventID) (n : VisualizationSubnode) :=
  mkNode (reserve_ n) (sub_meta_events_ n) (vis_driven_event_id_ n)
    (radar_event_id_ n) (camera_event_id_ n) v (fusion_event_id_ n)
    (motion_event_id_ n) (init_ n) (content_ n).

Definition with_fusion_event_id (v : EventID) (n : VisualizationSubnode) :=
  mkNode (reserve_ n) (sub_meta_events_ n) (vis_driven_event_id_ n)
    (radar_event_id_ n) (camera_event_id_ n) (cipv_event_id_ n) v
    (motion_event_id_ n) (init_ n) (content_ n).

Definition with_motion_event_id (v : EventID) (n : VisualizationSubnode) :=
  mkNode (reserve_ n) (sub_meta_events_ n) (vis_driven_event_id_ n)
    (radar_event_id_ n) (camera_event_id_ n) (cipv_event_id_ n)
    (fusion_event_id_ n) v (init_ n) (content_ n).

Definition with_init (b : bool) (n : VisualizationSubnode) :=
  mkNode (reserve_ n) (sub_meta_events_ n) (vis_driven_event_id_ n)
    (radar_event_id_ n) (camera_event_id_ n) (cipv_event_id_ n)
    (fusion_event_id_ n) (motion_event_id_ n) b (content_ n).

Definition with_content (c : FrameContent) (n : VisualizationSubnode) :=
  mkNode (reserve_ n) (sub_meta_events_ n) (vis_driven_event_id_ n)
    (radar_event_id_ n) (camera_event_id_ n) (cipv_event_id_ n)
    (fusion_event_id_ n) (motion_event_id_ n) (init_ n) c.

(** ** Operations *)

Inductive Flow := FallThrough | Return.

Inductive SubscribeEventsResult :=
| SubscribeWaits
| SubscribeReturns (ok : bool) (events : list Event) (em : EventManager).

Inductive Outcome :=
| Blocks
| Returns (st : Status).

Definition Failed_to_proc_events : Status :=
  {| code := PERCEPTION_ERROR; error_message := "Failed to proc events." |}.

Section Subnode.

(** The gflags in force, and the two [SubnodeHelper] functions the file
    calls: both report failure through their boolean result, here
    [None]. *)
Variable flags : Flags.
Variable ParseReserveField : string -> option (gmap string string).
Variable ProduceSharedDataKey : float -> string -> option string.

(** *** InitStream *)

Definition InitStream (this : VisualizationSubnode)
  : bool * VisualizationSubnode :=
  match ParseReserveField (reserve_ this) with
  | None => (false, this)
  | Some reserve_field_map =>
  match reserve_field_map !! "vis_driven_event_id" with
  | None => (false, this)
  | Some iter =>
  let this := with_vis_driven_event_id (Atoi.atoi iter) this in
  match reserve_field_map !! "radar_event_id" with
  | None => (false, this)
  | Some radar_iter =>
  let this := with_radar_event_id (Atoi.atoi radar_iter) this in
  match reserve_field_map !! "camera_event_id" with
  | None => (false, this)
  | Some camera_iter =>
  let this := with_camera_event_id (Atoi.atoi camera_iter) this in
  match reserve_field_map !! "cipv_event_id" with
  | None => (false, this)
  | Some cipv_iter =>
  let this := with_cipv_event_id (Atoi.atoi cipv_iter) this in
  match reserve_field_map !! "fusion_event_id" with
  | None => (false, this)
  | Some fusion_iter =>
  let this := with_fusion_event_id (Atoi.atoi fusion_iter) this in
  match reserve_field_map !! "motion_event_id" with
  | None => (true,  with_motion_event_id (-1) this)
  | Some motion_iter =>
      (true, with_motion_event_id (Atoi.atoi motion_iter) this)
  end end end end end end end.

(** *** SubscribeEvents *)

(** The non-blocking [while] loop.  Every successful poll removes one
    queued event, so [fuel] one above the queue length lets the loop
    reach the failing poll that ends it. *)
Fixpoint drain (fuel : nat) (em : EventManager) (id : EventID)
    (event : Event) (events : list Event)
  : list Event * Event * EventManager :=
  match fuel with
  | O => (events, event, em)
  | S fuel =>
      match Subscribe em id event true with
      | Result true event em => drain fuel em id event (events ++ [event])
      | _ => (events, event, em)
      end
  end.

Definition queue_length (em : EventManager) (id : EventID) : nat :=
  match em !! id with
  | Some q => length q
  | None => O
  end.

Definition SubscribeEvents (this : VisualizationSubnode)
    (event_meta : EventMeta) (events : list Event) (em : EventManager)
  : SubscribeEventsResult :=
  let event := default_Event in
  if meta_event_id event_meta =? vis_driven_event_id_ this then
    match Subscribe em (meta_event_id event_meta) event false with
    | Waits => SubscribeWaits
    | Result _ event em => SubscribeReturns true (events ++ [event]) em
    end
  else
    let '(events, _, em) :=
      drain (S (queue_length em (meta_event_id event_meta))) em
        (meta_event_id event_meta) event events in
    SubscribeReturns true events em.

(** *** GetFrameData *)

(** The [if / else if] chain on the event identifier.  [Return] is one
    of the [return;] statements of the failed lookups, [FallThrough]
    reaches the statement after the chain. *)
Definition GetFrameData_chain (this : VisualizationSubnode)
    (sd : SharedData) (event : Event) (device_id data_key : string)
    (ts : float) (content : FrameContent)
  : Flow * FrameContent * list Action :=
  if event_id event =? camera_event_id_ this then
    if show_camera flags then
      match Get (camera_shared_data_ sd) data_key with
      | (true, Some camera_item) =>
          let image := image_src_mat camera_item in
          let content := set_image_content ts image content in
          match Get (camera_object_data_ sd) data_key with
          | (true, Some objs) =>
              ( FallThrough
              , if FLAGS_show_camera_parsing flags then content
                else set_camera_content ts (sensor2world_pose objs)
                       (objects objs) content
              , [SharedGet CameraSharedData data_key;
                 SharedGet CameraObjectData data_key] )
          | _ =>
              ( Return, content
              , [SharedGet CameraSharedData data_key;
                 SharedGet CameraObjectData data_key] )
          end
      | _ => (Return, content, [SharedGet CameraSharedData data_key])
      end
    else (FallThrough, content, [])
  else if event_id event =? motion_event_id_ this then
    (FallThrough, content, [])
  else if event_id event =? radar_event_id_ this then
    if String.eqb device_id "radar_front" && FLAGS_show_radar_objects flags
    then
      match Get (radar_object_data_ sd) data_key with
      | (true, Some objs) =>
          ( FallThrough, set_radar_content ts (objects objs) content
          , [SharedGet RadarObjectData data_key] )
      | _ => (Return, content, [SharedGet RadarObjectData data_key])
      end
    else (FallThrough, content, [])
  else if event_id event =? fusion_event_id_ this then
    if FLAGS_show_fused_objects flags then
      match Get (fusion_data_ sd) data_key with
      | (true, Some fusion_item) =>
          ( FallThrough, set_fusion_content ts (obstacles fusion_item) content
          , [SharedGet FusionSharedData data_key] )
      | _ => (Return, content, [SharedGet FusionSharedData data_key])
      end
    else (FallThrough, content, [])
  else if event_id event =? cipv_event_id_ this then
    if show_camera flags then
      match Get (camera_shared_data_ sd) data_key with
      | (true, Some camera_item) =>
          let image := image_src_mat camera_item in
          let content := set_image_content ts image content in
          match Get (cipv_object_data_ sd) data_key with
          | (true, Some objs) =>
              ( FallThrough
              , if FLAGS_show_camera_parsing flags then content
                else set_camera_content ts (sensor2world_pose objs)
                       (objects objs) content
              , [SharedGet CameraSharedData data_key;
                 SharedGet CIPVObjectData data_key] )
          | _ =>
              ( Return, content
              , [SharedGet CameraSharedData data_key;
                 SharedGet CIPVObjectData data_key] )
          end
      | _ => (Return, content, [SharedGet CameraSharedData data_key])
      end
    else (FallThrough, content, [])
  else (FallThrough, content, []).

Definition GetFrameData (this : VisualizationSubnode) (sd : SharedData)
    (event : Event) (device_id data_key : string) (ts : float)
    (content : FrameContent) : FrameContent * list Action :=
  match GetFrameData_chain this sd event device_id data_key ts content with
  | (Return, content, tr) => (content, tr)
  | (FallThrough, content, tr) =>
      if event_id event =? vis_driven_event_id_ this
      then (update_timestamp ts content, tr)
      else (content, tr)
  end.

(** *** ProcEvents *)

(** The body of the loop over [events], for [events[j]]: [inl] is the
    [return] of the failed key derivation, [inr] carries on. *)
Definition ProcEvents_event (this : VisualizationSubnode) (sd : SharedData)
    (event_meta : EventMeta) (ev : Event)
  : (Status + VisualizationSubnode) * list Action :=
  let ts := timestamp ev in
  let device_id := reserve ev in
  match ProduceSharedDataKey ts device_id with
  | None => (inl Failed_to_proc_events, [])
  | Some data_key =>
      let '(content, tr) :=
        GetFrameData this sd ev device_id data_key ts (content_ this) in
      let this := with_content content this in
      if meta_event_id event_meta =? vis_driven_event_id_ this then
        let tr_init := if init_ this then [] else [Visualizer_init] in
        let this := with_init true this in
        ( inr this
        , tr ++ tr_init ++
          [Visualizer_update_camera_system (content_ this);
           Visualizer_render (content_ this)] )
      else (inr this, tr)
  end.

Fixpoint ProcEvents_events (this : VisualizationSubnode) (sd : SharedData)
    (event_meta : EventMeta) (events : list Event)
  : (Status + VisualizationSubnode) * VisualizationSubnode * list Action :=
  match events with
  | [] => (inr this, this, [])
  | ev :: events =>
      match ProcEvents_event this sd event_meta ev with
      | (inl st, tr) => (inl st, this, tr)
      | (inr this, tr) =>
          let '(r, this, tr') :=
            ProcEvents_events this sd event_meta events in
          (r, this, tr ++ tr')
      end
  end.

(** The loop over [sub_meta_events_]; the result carries the object, the
    event manager and the calls made up to the point where the cycle
    returned or started waiting.  On an empty [events] the loop over the
    events does nothing: that is the [continue]. *)
Fixpoint ProcEvents_metas (this : VisualizationSubnode) (sd : SharedData)
    (metas : list EventMeta) (em : EventManager)
  : Outcome * VisualizationSubnode * EventManager * list Action :=
  match metas with
  | [] => (Returns Status_OK, this, em, [])
  | event_meta :: metas =>
      match SubscribeEvents this event_meta [] em with
      | SubscribeWaits => (Blocks, this, em, [])
      | SubscribeReturns false _ em =>
          (Returns Failed_to_proc_events, this, em, [])
      | SubscribeReturns true events em =>
          match ProcEvents_events this sd event_meta events with
          | (inl st, this, tr) => (Returns st, this, em, tr)
          | (inr _, this, tr) =>
              let '(r, this, em, tr') :=
                ProcEvents_metas this sd metas em in
              (r, this, em, tr ++ tr')
          end
      end
  end.

Definition ProcEvents (this : VisualizationSubnode) (sd : SharedData)
    (em : EventManager)
  : Outcome * VisualizationSubnode * EventManager * list Action :=
  ProcEvents_metas this sd (sub_meta_events_ this) em.

(** *** Successive cycles *)

(** The thread of the subnode calls [ProcEvents] again and again on the
    same object, whatever status the previous call returned.  [cycles]
    gives, for every call, the stores and the event manager as the call
    finds them.  A call that waits in the blocking subscribe is the last
    one. *)
Fixpoint run (this : VisualizationSubnode)
    (cycles : list (SharedData * EventManager))
  : VisualizationSubnode * list Action :=
  match cycles with
  | [] => (this, [])
  | (sd, em) :: cycles =>
      match ProcEvents this sd em with
      | (Blocks, this, _, tr) => (this, tr)
      | (Returns _, this, _, tr) =>
          let '(this, tr') := run this cycles in
          (this, tr ++ tr')
      end
  end.

End Subnode.

(** ** Vocabulary of the properties *)

Definition required_keys : list string :=
  ["vis_driven_event_id"; "radar_event_id"; "camera_event_id";
   "cipv_event_id"; "fusion_event_id"].

Definition required_present (m : gmap string string) : Prop :=
  forall k, In k required_keys -> is_Some (m !! k).

(** The identifier [InitStream] stores for a key of the parsed map. *)
Definition stored_id (k : string) (n : VisualizationSubnode)
  : option EventID :=
  if String.eqb k "vis_driven_event_id" then Some (vis_driven_event_id_ n)
  else if String.eqb k "radar_event_id" then Some (radar_event_id_ n)
  else if String.eqb k "camera_event_id" then Some (camera_event_id_ n)
  else if String.eqb k "cipv_event_id" then Some (cipv_event_id_ n)
  else if String.eqb k "fusion_event_id" then Some (fusion_event_id_ n)
  else if String.eqb k "motion_event_id" then Some (motion_event_id_ n)
  else None.

(** The payload a lookup makes available: [Get] succeeded and the pointer
    it wrote is not null. *)
Definition payload {A} (store : gmap string (option A)) (key : string)
  : option A :=
  match Get store key with
  | (true, Some x) => Some x
  | _ => None
  end.

Definition is_get (a : Action) : bool :=
  match a with SharedGet _ _ => true | _ => false end.

(** The branch of the [if / else if] chain an event takes. *)
Inductive Branch :=
| CameraBranch | MotionBranch | RadarBranch | FusionBranch | CipvBranch
| NoBranch.

Definition branch_of (this : VisualizationSubnode) (event : Event) : Branch :=
  if event_id event =? camera_event_id_ this then CameraBranch
  else if event_id event =? motion_event_id_ this then MotionBranch
  else if event_id event =? radar_event_id_ this then RadarBranch
  else if event_id event =? fusion_event_id_ this then FusionBranch
  else if event_id event =? cipv_event_id_ this then CipvBranch
  else NoBranch.

(** The configuration part of the object: everything but [init_] and
    [content_]. *)
Definition same_config (a b : VisualizationSubnode) : Prop :=
  b = with_init (init_ b) (with_content (content_ b) a).

(** The events a cycle gets from the event manager, each with the kind it
    was subscribed under, in processing order. *)
Fixpoint worklist (this : VisualizationSubnode) (metas : list EventMeta)
    (em : EventManager) : list (EventMeta * Event) :=
  match metas with
  | [] => []
  | event_meta :: metas =>
      match SubscribeEvents this event_meta [] em with
      | SubscribeWaits => []
      | SubscribeReturns _ events em =>
          map (pair event_meta) events ++ worklist this metas em
      end
  end.

Definition is_driving (this : VisualizationSubnode) (event_meta : EventMeta)
  : bool :=
  meta_event_id event_meta =? vis_driven_event_id_ this.

Definition driving_snapshot (this : VisualizationSubnode)
    (p : EventMeta * FrameContent) : bool :=
  is_driving this (fst p).

Section Snapshots.

Variable flags : Flags.
Variable ProduceSharedDataKey : float -> string -> option string.

(** The snapshot after the correlation of each event of [work], in
    order, from the snapshot [content] on; the list ends where a key
    cannot be derived.  Nothing but [GetFrameData] enters it. *)
Fixpoint snapshots (this : VisualizationSubnode) (sd : SharedData)
    (content : FrameContent) (work : list (EventMeta * Event))
  : list (EventMeta * FrameContent) :=
  match work with
  | [] => []
  | (event_meta, ev) :: work =>
      match ProduceSharedDataKey (timestamp ev) (reserve ev) with
      | None => []
      | Some data_key =>
          let c := fst (GetFrameData flags this sd ev (reserve ev) data_key
                          (timestamp ev) content) in
          (event_meta, c) :: snapshots this sd c work
      end
  end.

End Snapshots.

(** *** The shape of the renderer calls

    [dispatch_trace b tr b']: starting with [init_ = b], the calls [tr]
    end with [init_ = b'].  Lookups may occur anywhere; [init()] occurs
    only while [init_] is false and is followed at once by
    [update_camera_system] and [render] on one snapshot; every other
    [render] comes after its [update_camera_system] with [init_] set. *)
Inductive dispatch_trace : bool -> list Action -> bool -> Prop :=
| dt_nil b : dispatch_trace b [] b
| dt_get b st key tr b' :
    dispatch_trace b tr b' ->
    dispatch_trace b (SharedGet st key :: tr) b'
| dt_first c tr b' :
    dispatch_trace true tr b' ->
    dispatch_trace false
      (Visualizer_init :: Visualizer_update_camera_system c ::
       Visualizer_render c :: tr) b'
| dt_next c tr b' :
    dispatch_trace true tr b' ->
    dispatch_trace true
      (Visualizer_update_camera_system c :: Visualizer_render c :: tr) b'.

(** ** Initialization of the object *)

(** The members [InitInternal] binds and that the record above leaves
    out: the five store pointers (null, or the class of the shared object
    they point to), the visualizer (null, or the name it was instantiated
    under) and the camera-to-car pose. *)
Module Ptr.

Record t := mk {
  radar_object_data_ : option StoreName;
  camera_object_data_ : option StoreName;
  cipv_object_data_ : option StoreName;
  fusion_data_ : option StoreName;
  camera_shared_data_ : option StoreName;
  frame_visualizer_ : option string;
  camera_to_car_pose_ : Matrix4d
}.

Definition with_radar_object_data (v : option StoreName) (p : t) : t :=
  mk v (camera_object_data_ p) (cipv_object_data_ p) (fusion_data_ p)
    (camera_shared_data_ p) (frame_visualizer_ p) (camera_to_car_pose_ p).

Definition with_camera_object_data (v : option StoreName) (p : t) : t :=
  mk (radar_object_data_ p) v (cipv_object_data_ p) (fusion_data_ p)
    (camera_shared_data_ p) (frame_visualizer_ p) (camera_to_car_pose_ p).

Definition with_cipv_object_data (v : option StoreName) (p : t) : t :=
  mk (radar_object_data_ p) (camera_object_data_ p) v (fusion_data_ p)
    (camera_shared_data_ p) (frame_visualizer_ p) (camera_to_car_pose_ p).

Definition with_fusion_data (v : option StoreName) (p : t) : t :=
  mk (radar_object_data_ p) (camera_object_data_ p) (cipv_object_data_ p) v
    (camera_shared_data_ p) (frame_visualizer_ p) (camera_to_car_pose_ p).

Definition with_camera_shared_data (v : option StoreName) (p : t) : t :=
  mk (radar_object_data_ p) (camera_object_data_ p) (cipv_object_data_ p)
    (fusion_data_ p) v (frame_visualizer_ p) (camera_to_car_pose_ p).

Definition with_frame_visualizer (v : option string) (p : t) : t :=
  mk (radar_object_data_ p) (camera_object_data_ p) (cipv_object_data_ p)
    (fusion_data_ p) (camera_shared_data_ p) v (camera_to_car_pose_ p).

Definition with_camera_to_car_pose (v : Matrix4d) (p : t) : t :=
  mk (radar_object_data_ p) (camera_object_data_ p) (cipv_object_data_ p)
    (fusion_data_ p) (camera_shared_data_ p) (frame_visualizer_ p) v.

(** The pointer a lookup on a store goes through. *)
Definition of_store (st : StoreName) (p : t) : option StoreName :=
  match st with
  | RadarObjectData => radar_object_data_ p
  | CameraObjectData => camera_object_data_ p
  | CIPVObjectData => cipv_object_data_ p
  | FusionSharedData => fusion_data_ p
  | CameraSharedData => camera_shared_data_ p
  end.

End Ptr.

Definition StoreName_eqb (a b : StoreName) : bool :=
  match a, b with
  | RadarObjectData, RadarObjectData
  | CameraObjectData, CameraObjectData
  | CIPVObjectData, CIPVObjectData
  | FusionSharedData, FusionSharedData
  | CameraSharedData, CameraSharedData => true
  | _, _ => false
  end.

(** Modelled from the spec: the collaborators of the initialization, none
    of them part of this file.  The shared-data manager is the "named
    lookup" of the stores: null, or a registry giving for a name the
    class of the shared object registered under it.  The visualizer
    registry is the "name-to-factory mapping" of the renderers.  The
    calibration supplies the camera extrinsics. *)
Record Services := mkServices {
  shared_data_manager_ : option (gmap string StoreName);
  visualizers : gset string;
  camera_extrinsics : Matrix4d
}.

(** [dynamic_cast<cls*>(ptr)]: the pointer when the object is of the
    class asked for, null otherwise ("resolving an unknown store name or
    an incompatible store type" both end in a null pointer). *)
Definition dynamic_cast (cls : StoreName) (ptr : option StoreName)
  : option StoreName :=
  match ptr with
  | Some c => if StoreName_eqb c cls then Some c else None
  | None => None
  end.

Definition non_null {A} (ptr : option A) : bool :=
  match ptr with Some _ => true | None => false end.

Inductive InitAction :=
| GetSharedData (name : string)
| GetInstanceByName (name : string).

(** [CHECK] ends the process; otherwise the function returns its flag. *)
Inductive InitOutcome :=
| CheckFailed
| InitReturned (ok : bool).

Section Initialization.

Variable flags : Flags.
Variable ParseReserveField : string -> option (gmap string string).

(** [InitInternal], statement by statement; every [let '(ok, ...)] is one
    of the guarded blocks and the [if negb ok] behind it is the
    [return false] inside the block. *)
Definition InitInternal (env : Services) (this : VisualizationSubnode)
    (p : Ptr.t)
  : InitOutcome * VisualizationSubnode * Ptr.t * list InitAction :=
  match shared_data_manager_ env with
  | None => (CheckFailed, this, p, [])
  | Some mgr =>
  (* init radar object data *)
  let '(ok, p, tr) :=
    if FLAGS_show_radar_objects flags then
      let ptr := dynamic_cast RadarObjectData (mgr !! "RadarObjectData") in
      ( non_null ptr, Ptr.with_radar_object_data ptr p
      , [GetSharedData "RadarObjectData"] )
    else (true, p, []) in
  if negb ok then (InitReturned false, this, p, tr) else
  (* init camera object data *)
  let '(ok, p, tr) :=
    if show_camera flags then
      let ptr := dynamic_cast CameraObjectData (mgr !! "CameraObjectData") in
      let p := Ptr.with_camera_object_data ptr p in
      let tr := tr ++ [GetSharedData "CameraObjectData"] in
      if negb (non_null ptr) then (false, p, tr) else
      let ptr := dynamic_cast CIPVObjectData (mgr !! "CIPVObjectData") in
      ( non_null ptr, Ptr.with_cipv_object_data ptr p
      , tr ++ [GetSharedData "CIPVObjectData"] )
    else (true, p, tr) in
  if negb ok then (InitReturned false, this, p, tr) else
  (* init fusion data *)
  let '(ok, p, tr) :=
    if FLAGS_show_fused_objects flags then
      let ptr := dynamic_cast FusionSharedData (mgr !! "FusionSharedData") in
      ( non_null ptr, Ptr.with_fusion_data ptr p
      , tr ++ [GetSharedData "FusionSharedData"] )
    else (true, p, tr) in
  if negb ok then (InitReturned false, this, p, tr) else
  (* init camera shared data *)
  let '(ok, p, tr) :=
    if show_camera flags then
      let ptr := dynamic_cast CameraSharedData (mgr !! "CameraSharedData") in
      ( non_null ptr, Ptr.with_camera_shared_data ptr p
      , tr ++ [GetSharedData "CameraSharedData"] )
    else (true, p, tr) in
  if negb ok then (InitReturned false, this, p, tr) else
  (* init frame_visualizer *)
  let instance :=
    if bool_decide (FLAGS_frame_visualizer flags ∈ visualizers env)
    then Some (FLAGS_frame_visualizer flags) else None in
  let p := Ptr.with_frame_visualizer instance p in
  let tr := tr ++ [GetInstanceByName (FLAGS_frame_visualizer flags)] in
  if negb (non_null instance) then (InitReturned false, this, p, tr) else
  let this :=
    with_content (set_pose_type IMAGE_CONTINUOUS (content_ this)) this in
  (* init stream *)
  let '(ok, this) := InitStream ParseReserveField this in
  if negb ok then (InitReturned false, this, p, tr) else
  let p := Ptr.with_camera_to_car_pose (camera_extrinsics env) p in
  let this :=
    with_content
      (set_camera2car_pose (Ptr.camera_to_car_pose_ p) (content_ this))
      this in
  (InitReturned true, this, p, tr)
  end.

End Initialization.

(** The stores a toggle setting needs. *)
Definition store_needed (flags : Flags) (st : StoreName) : bool :=
  match st with
  | RadarObjectData => FLAGS_show_radar_objects flags
  | CameraObjectData | CIPVObjectData | CameraSharedData => show_camera flags
  | FusionSharedData => FLAGS_show_fused_objects flags
  end.

(** The name a store is asked for under. *)
Definition store_name (st : StoreName) : string :=
  match st with
  | RadarObjectData => "RadarObjectData"
  | CameraObjectData => "CameraObjectData"
  | CIPVObjectData => "CIPVObjectData"
  | FusionSharedData => "FusionSharedData"
  | CameraSharedData => "CameraSharedData"
  end.

Definition all_stores : list StoreName :=
  [RadarObjectData; CameraObjectData; CIPVObjectData; FusionSharedData;
   CameraSharedData].

(** Every store the toggles need is registered under its name with its
    class. *)
Definition stores_ok (flags : Flags) (mgr : gmap string StoreName) : bool :=
  forallb
    (fun st =>
       implb (store_needed flags st)
         (non_null (dynamic_cast st (mgr !! store_name st))))
    all_stores.

Definition is_GetSharedData (name : string) (a : InitAction) : bool :=
  match a with
  | GetSharedData n => String.eqb n name
  | GetInstanceByName _ => false
  end.

Definition is_GetInstanceByName (a : InitAction) : bool :=
  match a with
  | GetInstanceByName _ => true
  | GetSharedData _ => false
  end.

(** ** Vocabulary of the further properties *)

(** An event whose key cannot be derived. *)
Definition underivable (K : float -> string -> option string) (ev : Event)
  : Prop :=
  K (timestamp ev) (reserve ev) = None.

(** How many of the subscribed kinds carry the driving identifier. *)
Definition driving_metas (this : VisualizationSubnode)
    (metas : list EventMeta) : nat :=
  length (List.filter (is_driving this) metas).

(** The store each branch of the chain reads, and no other. *)
Definition branch_reads (b : Branch) (st : StoreName) : bool :=
  match b, st with
  | CameraBranch, (CameraSharedData | CameraObjectData)
  | CipvBranch, (CameraSharedData | CIPVObjectData)
  | RadarBranch, RadarObjectData
  | FusionBranch, FusionSharedData => true
  | _, _ => false
  end.

(** [GetFrameData] read by branch and payload, for the proofs: the
    statement behind the chain, then the camera and cipv branches (one
    text but for the detection store), then the whole function.
    [GetFrameData_by_branch] proves it equal to the function above. *)
Definition timestamp_updated (this : VisualizationSubnode) (event : Event)
    (ts : float) (content : FrameContent) : FrameContent :=
  if event_id event =? vis_driven_event_id_ this
  then update_timestamp ts content else content.

Definition image_and_detections (flags : Flags) (this : VisualizationSubnode)
    (images : gmap string (option CameraItem))
    (detections : gmap string (option SensorObjects))
    (detection_store : StoreName) (event : Event) (data_key : string)
    (ts : float) (content : FrameContent) : FrameContent * list Action :=
  if show_camera flags then
    match payload images data_key with
    | None => (content, [SharedGet CameraSharedData data_key])
    | Some item =>
        let content := set_image_content ts (image_src_mat item) content in
        ( match payload detections data_key with
          | None => content
          | Some objs =>
              timestamp_updated this event ts
                (if FLAGS_show_camera_parsing flags then content
                 else set_camera_content ts (sensor2world_pose objs)
                        (objects objs) content)
          end
        , [SharedGet CameraSharedData data_key;
           SharedGet detection_store data_key] )
    end
  else (timestamp_updated this event ts content, []).

Definition correlated (flags : Flags) (this : VisualizationSubnode)
    (sd : SharedData) (event : Event) (device_id data_key : string)
    (ts : float) (content : FrameContent) : FrameContent * list Action :=
  match branch_of this event with
  | CameraBranch =>
      image_and_detections flags this (camera_shared_data_ sd)
        (camera_object_data_ sd) CameraObjectData event data_key ts content
  | CipvBranch =>
      image_and_detections flags this (camera_shared_data_ sd)
        (cipv_object_data_ sd) CIPVObjectData event data_key ts content
  | RadarBranch =>
      if String.eqb device_id "radar_front" && FLAGS_show_radar_objects flags
      then
        match payload (radar_object_data_ sd) data_key with
        | None => (content, [SharedGet RadarObjectData data_key])
        | Some objs =>
            ( timestamp_updated this event ts
                (set_radar_content ts (objects objs) content)
            , [SharedGet RadarObjectData data_key] )
        end
      else (timestamp_updated this event ts content, [])
  | FusionBranch =>
      if FLAGS_show_fused_objects flags then
        match payload (fusion_data_ sd) data_key with
        | None => (content, [SharedGet FusionSharedData data_key])
        | Some item =>
            ( timestamp_updated this event ts
                (set_fusion_content ts (obstacles item) content)
            , [SharedGet FusionSharedData data_key] )
        end
      else (timestamp_updated this event ts content, [])
  | MotionBranch | NoBranch => (timestamp_updated this event ts content, [])
  end.

(** [k] and every required key in front of it are in the map: the
    lookups of [InitStream] get as far as [k]. *)
Fixpoint present_upto (m : gmap string string) (keys : list string)
    (k : string) : bool :=
  match keys with
  | [] => false
  | k' :: keys =>
      match m !! k' with
      | None => false
      | Some _ => if String.eqb k' k then true else present_upto m keys k
      end
  end.

Definition all_present (m : gmap string string) (keys : list string) : bool :=
  forallb (fun k => non_null (m !! k)) keys.

(** * A concrete configuration

    The driving stream is the camera stream (both carry identifier 1008),
    as in a deployment where the camera event paces the visualization. *)

Module Scenario.

Definition flags_on : Flags :=
  mkFlags true true false false true "GLFusionVisualizer".

Definition flags_off : Flags :=
  mkFlags false false false false false "GLFusionVisualizer".

(** A key derivation that fails for the device label "?". *)
Definition key_of (ts : float) (device_id : string) : option string :=
  if String.eqb device_id "?" then None else Some device_id.

Definition reserve_map : gmap string string :=
  list_to_map
    [("vis_driven_event_id", "1008"); ("camera_event_id", "1008");
     ("radar_event_id", "1001"); ("fusion_event_id", "1009");
     ("cipv_event_id", "1010")].

Definition reserve_map_abc : gmap string string :=
  <["radar_event_id" := "abc"]> reserve_map.

Definition parse (m : gmap string string) (reserve : string)
  : option (gmap string string) := Some m.

Definition content0 : FrameContent :=
  mkFrameContent IMAGE_CONTINUOUS [] None None None None 0%float.

Definition radar_meta := mkEventMeta 1001 "radar".
Definition fusion_meta := mkEventMeta 1009 "fusion".
Definition driving_meta := mkEventMeta 1008 "camera".

Definition node0 : VisualizationSubnode :=
  mkNode "" [radar_meta; fusion_meta; driving_meta]
    1008 1001 1008 1010 1009 (-1) false content0.

Definition radar_front_ev := mkEvent 1001 1%float "radar_front".
Definition radar_rear_ev := mkEvent 1001 1%float "radar_rear".
Definition fusion_ev := mkEvent 1009 1%float "fusion".
Definition unkeyed_ev := mkEvent 1009 2%float "?".
Definition camera_ev := mkEvent 1008 3%float "camera".

Definition em0 : EventManager :=
  {[ 1001 := [radar_front_ev; radar_rear_ev];
     1009 := [fusion_ev; unkeyed_ev; fusion_ev];
     1008 := [camera_ev] ]}.

Definition em1 : EventManager :=
  {[ 1001 := [radar_front_ev; radar_rear_ev];
     1009 := [fusion_ev];
     1008 := [camera_ev; camera_ev] ]}.

(** The image of the camera event is stored, its detection list is not. *)
Definition sd0 : SharedData :=
  {| radar_object_data_ :=
       {[ "radar_front" := Some (mkSensorObjects [7; 8] [] 0);
          "radar_rear" := Some (mkSensorObjects [9] [] 0) ]};
     camera_object_data_ := ∅;
     cipv_object_data_ := ∅;
     fusion_data_ := {[ "fusion" := Some (mkFusionItem [7; 8; 9]) ]};
     camera_shared_data_ := {[ "camera" := Some (mkCameraItem [1; 2; 3]) ]}
  |}.

(** Nothing is stored for the camera event. *)
Definition sd_empty : SharedData := mkSharedData ∅ ∅ ∅ ∅ ∅.

(** The states of a cycle on [em0]: after the radar kind, and after the
    first fusion event. *)
Definition after_radar : VisualizationSubnode :=
  with_content (set_radar_content 1%float [7; 8] content0) node0.

Definition em_after_radar : EventManager := <[1001 := []]> em0.

Definition after_fusion_ev : VisualizationSubnode :=
  with_content
    (set_fusion_content 1%float [7; 8; 9] (content_ after_radar))
    after_radar.

Definition em_after_fusion : EventManager := <[1009 := []]> em_after_radar.

(** An object subscribed to the driving kind alone. *)
Definition node_driving : VisualizationSubnode :=
  mkNode "" [driving_meta] 1008 1001 1008 1010 1009 (-1) false content0.

End Scenario.

(** * A concrete initialization *)

Module InitScenario.

Definition registry : gmap string StoreName :=
  list_to_map
    [("RadarObjectData", RadarObjectData);
     ("CameraObjectData", CameraObjectData);
     ("CIPVObjectData", CIPVObjectData);
     ("FusionSharedData", FusionSharedData);
     ("CameraSharedData", CameraSharedData)].

Definition extrinsics : Matrix4d := [1%float; 0%float; 0%float; 2%float].

Definition env : Services :=
  mkServices (Some registry) {[ "GLFusionVisualizer" ]} extrinsics.

(** The fusion store is registered with the class of the radar store. *)
Definition env_miscast : Services :=
  mkServices (Some (<["FusionSharedData" := RadarObjectData]> registry))
    {[ "GLFusionVisualizer" ]} extrinsics.

Definition ptr0 : Ptr.t := Ptr.mk None None None None None None [].

Definition flags_radar_only : Flags :=
  mkFlags true false false false false "GLFusionVisualizer".

Definition flags_parsing : Flags :=
  mkFlags true true false true true "GLFusionVisualizer".

Definition parse_reserve : string -> option (gmap string string) :=
  Scenario.parse Scenario.reserve_map.

Definition initialized :=
  InitInternal Scenario.flags_on parse_reserve env Scenario.node0 ptr0.

(** An object with a motion stream, subscribed to the passive kinds
    only, and an object whose renderer is initialized. *)
Definition motion_meta := mkEventMeta 1011 "motion".

Definition node_passive : VisualizationSubnode :=
  mkNode "" [Scenario.radar_meta; Scenario.fusion_meta; motion_meta]
    1008 1001 1008 1010 1009 1011 false Scenario.content0.

Definition motion_ev := mkEvent 1011 4%float "motion".

(** The same object with two identifiers that are not those of the
    reserve map. *)
Definition node_stale : VisualizationSubnode :=
  with_cipv_event_id 9 (with_radar_event_id 7 node_passive).

Definition node_rendering : VisualizationSubnode :=
  with_init true Scenario.node0.

Definition two_cycles : list (SharedData * EventManager) :=
  [(Scenario.sd0, Scenario.em1); (Scenario.sd0, Scenario.em1)].

(** Every payload of the camera event is stored. *)
Definition sd_full : SharedData :=
  {| radar_object_data_ := radar_object_data_ Scenario.sd0;
     camera_object_data_ :=
       {[ "camera" := Some (mkSensorObjects [4; 5] [1%float] 1) ]};
     cipv_object_data_ := ∅;
     fusion_data_ := fusion_data_ Scenario.sd0;
     camera_shared_data_ := camera_shared_data_ Scenario.sd0 |}.

End InitScenario.

(** * Properties *)

(** ** Conversion of identifier values *)

Module AtoiFacts.
Import Atoi.

Lemma atoi_no_number s : no_number s = true -> atoi s = 0.
Proof.
  unfold no_number, atoi, strtol.
  destruct (sign (skip_space s)) as [neg u]; simpl.
  intros H.
  assert (Hd : digits u 0 = 0).
  { destruct u as [|c r]; [reflexivity|]. simpl.
    destruct (digit c); [discriminate | reflexivity]. }
  rewrite Hd. destruct neg; reflexivity.
Qed.

End AtoiFacts.

Example atoi_abc : Atoi.atoi "abc" = 0.
Proof. apply AtoiFacts.atoi_no_number. reflexivity. Qed.

Example atoi_42 : Atoi.atoi "  42abc" = 42.
Proof. reflexivity. Qed.

Example atoi_neg : Atoi.atoi "-7" = -7.
Proof. reflexivity. Qed.

Example atoi_wraps : Atoi.atoi "4294967297" = 1.
Proof. reflexivity. Qed.

(** ** Stream initialization *)

Section InitStreamFacts.

Variable ParseReserveField : string -> option (gmap string string).

Lemma required_present_lookups (m : gmap string string) :
  required_present m <->
  is_Some (m !! "vis_driven_event_id") /\
  is_Some (m !! "radar_event_id") /\
  is_Some (m !! "camera_event_id") /\
  is_Some (m !! "cipv_event_id") /\
  is_Some (m !! "fusion_event_id").
Proof.
  unfold required_present, required_keys. split.
  - intros H. repeat split; apply H; simpl; tauto.
  - intros (H1 & H2 & H3 & H4 & H5) k Hk. simpl in Hk.
    destruct Hk as [<-|[<-|[<-|[<-|[<-|[]]]]]]; assumption.
Qed.

(** What a successful [InitStream] leaves in the object. *)
Lemma InitStream_present this m v1 v2 v3 v4 v5 :
  ParseReserveField (reserve_ this) = Some m ->
  m !! "vis_driven_event_id" = Some v1 ->
  m !! "radar_event_id" = Some v2 ->
  m !! "camera_event_id" = Some v3 ->
  m !! "cipv_event_id" = Some v4 ->
  m !! "fusion_event_id" = Some v5 ->
  InitStream ParseReserveField this =
    (true,
     mkNode (reserve_ this) (sub_meta_events_ this)
       (Atoi.atoi v1) (Atoi.atoi v2) (Atoi.atoi v3) (Atoi.atoi v4)
       (Atoi.atoi v5)
       (match m !! "motion_event_id" with
        | Some v6 => Atoi.atoi v6
        | None => -1
        end)
       (init_ this) (content_ this)).
Proof.
  intros Hp H1 H2 H3 H4 H5. unfold InitStream.
  rewrite Hp, H1, H2, H3, H4, H5.
  destruct (m !! "motion_event_id"); reflexivity.
Qed.

Lemma InitStream_absent this m k :
  ParseReserveField (reserve_ this) = Some m ->
  In k required_keys -> m !! k = None ->
  fst (InitStream ParseReserveField this) = false.
Proof.
  intros Hp Hk Hnone. unfold InitStream. rewrite Hp.
  unfold required_keys in Hk. simpl in Hk.
  destruct Hk as [<-|[<-|[<-|[<-|[<-|[]]]]]];
    repeat match goal with
      | |- context [match ?m' !! ?key with _ => _ end] =>
          first [ rewrite Hnone | destruct (m' !! key) ]
      end; reflexivity.
Qed.

(** C5.  Once the reserve string is parsed, [InitStream] returns [true]
    exactly when the five identifiers [vis_driven_event_id],
    [radar_event_id], [camera_event_id], [cipv_event_id] and
    [fusion_event_id] are all in the map; a map without
    [motion_event_id] does not make it fail and leaves
    [motion_event_id_] at -1. *)
Theorem InitStream_succeeds_iff_required this m :
  ParseReserveField (reserve_ this) = Some m ->
  (fst (InitStream ParseReserveField this) = true <-> required_present m) /\
  (required_present m -> m !! "motion_event_id" = None ->
   fst (InitStream ParseReserveField this) = true /\
   motion_event_id_ (snd (InitStream ParseReserveField this)) = -1).
Proof.
  intros Hp. split; [split|].
  - intros Hok k Hk.
    destruct (m !! k) as [v|] eqn:Hl; [eexists; reflexivity|].
    rewrite (InitStream_absent this m k Hp Hk Hl) in Hok. discriminate.
  - intros Hall. apply required_present_lookups in Hall.
    destruct Hall as ([v1 H1] & [v2 H2] & [v3 H3] & [v4 H4] & [v5 H5]).
    rewrite (InitStream_present this m _ _ _ _ _ Hp H1 H2 H3 H4 H5).
    reflexivity.
  - intros Hall Hm. apply required_present_lookups in Hall.
    destruct Hall as ([v1 H1] & [v2 H2] & [v3 H3] & [v4 H4] & [v5 H5]).
    rewrite (InitStream_present this m _ _ _ _ _ Hp H1 H2 H3 H4 H5).
    rewrite Hm. split; reflexivity.
Qed.

(** C10.  With the five required keys present [InitStream] succeeds
    whatever the values are: each identifier, the optional motion one
    included, is [atoi] of the value found, so a value that does not
    start with a number (after white space and a sign), such as "abc",
    is stored as identifier 0 and nothing is reported. *)
Theorem InitStream_no_format_validation this m :
  ParseReserveField (reserve_ this) = Some m ->
  required_present m ->
  fst (InitStream ParseReserveField this) = true /\
  (forall k v, In k ("motion_event_id" :: required_keys) ->
     m !! k = Some v ->
     stored_id k (snd (InitStream ParseReserveField this))
       = Some (Atoi.atoi v) /\
     (Atoi.no_number v = true ->
      stored_id k (snd (InitStream ParseReserveField this)) = Some 0)).
Proof.
  intros Hp Hall. apply required_present_lookups in Hall.
  destruct Hall as ([v1 H1] & [v2 H2] & [v3 H3] & [v4 H4] & [v5 H5]).
  rewrite (InitStream_present this m _ _ _ _ _ Hp H1 H2 H3 H4 H5).
  split; [reflexivity|].
  intros k v Hk Hv.
  assert (Hs : stored_id k
                 (snd (true,
                    mkNode (reserve_ this) (sub_meta_events_ this)
                      (Atoi.atoi v1) (Atoi.atoi v2) (Atoi.atoi v3)
                      (Atoi.atoi v4) (Atoi.atoi v5)
                      (match m !! "motion_event_id" with
                       | Some v6 => Atoi.atoi v6
                       | None => -1
                       end) (init_ this) (content_ this)))
               = Some (Atoi.atoi v)).
  { unfold required_keys in Hk. simpl in Hk.
    destruct Hk as [<-|[<-|[<-|[<-|[<-|[<-|[]]]]]]];
      try rewrite Hv; unfold stored_id; cbn [String.eqb Ascii.eqb Bool.eqb snd
      vis_driven_event_id_ radar_event_id_ camera_event_id_ cipv_event_id_
      fusion_event_id_ motion_event_id_]; try reflexivity;
      match goal with
      | H : ?l = Some ?a |- Some (Atoi.atoi ?a) = _ =>
          rewrite H in Hv; injection Hv as ->; reflexivity
      end. }
  split; [exact Hs|].
  intros Hn. rewrite Hs. rewrite (AtoiFacts.atoi_no_number v Hn).
  reflexivity.
Qed.

End InitStreamFacts.

(** ** Frame correlation *)

Lemma renders_app tr1 tr2 : renders (tr1 ++ tr2) = renders tr1 ++ renders tr2.
Proof.
  induction tr1 as [|a tr1 IH]; [reflexivity|].
  destruct a; simpl; rewrite IH; reflexivity.
Qed.

Lemma count_init_app tr1 tr2 :
  count_init (tr1 ++ tr2) = (count_init tr1 + count_init tr2)%nat.
Proof. unfold count_init. rewrite filter_app, length_app. reflexivity. Qed.

Lemma lookups_app st tr1 tr2 :
  lookups st (tr1 ++ tr2) = (lookups st tr1 + lookups st tr2)%nat.
Proof. unfold lookups. rewrite filter_app, length_app. reflexivity. Qed.

Lemma gets_no_render tr : forallb is_get tr = true -> renders tr = [].
Proof.
  induction tr as [|a tr IH]; [reflexivity|].
  destruct a; simpl; try discriminate. exact IH.
Qed.

Lemma gets_no_init tr : forallb is_get tr = true -> count_init tr = O.
Proof.
  induction tr as [|a tr IH]; [reflexivity|].
  destruct a; simpl; try discriminate. exact IH.
Qed.

Section GetFrameDataFacts.

Variable flags : Flags.

Ltac chain_cases :=
  unfold GetFrameData, GetFrameData_chain, payload, Get in *;
  repeat case_match; simplify_eq; simpl in *.

(** [GetFrameData] reads the identifiers of the object and nothing else
    of it. *)
Lemma GetFrameData_with_content this c :
  GetFrameData flags (with_content c this) = GetFrameData flags this.
Proof. reflexivity. Qed.

Lemma GetFrameData_with_init this b :
  GetFrameData flags (with_init b this) = GetFrameData flags this.
Proof. reflexivity. Qed.

(** The only calls it makes are store lookups. *)
Lemma GetFrameData_only_gets this sd event device_id data_key ts content :
  forallb is_get
    (snd (GetFrameData flags this sd event device_id data_key ts content))
  = true.
Proof. chain_cases; reflexivity. Qed.

(** The fields no branch writes. *)
Lemma GetFrameData_pose this sd event device_id data_key ts content :
  let c := fst (GetFrameData flags this sd event device_id data_key ts
                  content) in
  camera2car_pose c = camera2car_pose content /\
  pose_type c = pose_type content.
Proof. chain_cases; split; reflexivity. Qed.

(** The frame timestamp is the one passed in or the one found. *)
Lemma GetFrameData_timestamp_cases this sd event device_id data_key ts
    content :
  let c := fst (GetFrameData flags this sd event device_id data_key ts
                  content) in
  frame_timestamp c = ts \/ frame_timestamp c = frame_timestamp content.
Proof. chain_cases; auto. Qed.

(** Only an event carrying the driving identifier moves it. *)
Lemma GetFrameData_timestamp_other this sd event device_id data_key ts
    content :
  event_id event <> vis_driven_event_id_ this ->
  frame_timestamp
    (fst (GetFrameData flags this sd event device_id data_key ts content))
  = frame_timestamp content.
Proof.
  intros Hne. chain_cases; try reflexivity;
    match goal with
    | H : (_ =? _) = true |- _ => apply Z.eqb_eq in H; congruence
    end.
Qed.

(** When the chain reaches its end, a driving event sets the frame
    timestamp. *)
Lemma GetFrameData_timestamp_fallthrough this sd event device_id data_key
    ts content c tr :
  GetFrameData_chain flags this sd event device_id data_key ts content
    = (FallThrough, c, tr) ->
  event_id event = vis_driven_event_id_ this ->
  GetFrameData flags this sd event device_id data_key ts content
    = (update_timestamp ts c, tr).
Proof.
  intros Hc Hid. unfold GetFrameData. rewrite Hc.
  apply Z.eqb_eq in Hid. rewrite Hid. reflexivity.
Qed.

(** A [return] of the chain is the end of [GetFrameData]. *)
Lemma GetFrameData_return this sd event device_id data_key ts content c tr :
  GetFrameData_chain flags this sd event device_id data_key ts content
    = (Return, c, tr) ->
  GetFrameData flags this sd event device_id data_key ts content = (c, tr).
Proof. intros Hc. unfold GetFrameData. rewrite Hc. reflexivity. Qed.

(** Radar content is written behind the toggle and the device filter. *)
Lemma GetFrameData_radar_filter this sd event device_id data_key ts content :
  FLAGS_show_radar_objects flags = false \/ device_id <> "radar_front" ->
  let r := GetFrameData flags this sd event device_id data_key ts content in
  radar_content (fst r) = radar_content content /\
  lookups RadarObjectData (snd r) = O.
Proof.
  intros Hf.
  assert (Hb : String.eqb device_id "radar_front" &&
               FLAGS_show_radar_objects flags = false).
  { destruct Hf as [-> | Hd]; [apply andb_false_r|].
    apply String.eqb_neq in Hd. rewrite Hd. reflexivity. }
  chain_cases; try (split; reflexivity); congruence.
Qed.

Lemma GetFrameData_camera_off this sd event device_id data_key ts content :
  show_camera flags = false ->
  let r := GetFrameData flags this sd event device_id data_key ts content in
  image_content (fst r) = image_content content /\
  camera_content (fst r) = camera_content content /\
  lookups CameraSharedData (snd r) = O /\
  lookups CameraObjectData (snd r) = O /\
  lookups CIPVObjectData (snd r) = O.
Proof.
  intros Hf. chain_cases; try (repeat split; reflexivity); congruence.
Qed.

Lemma GetFrameData_fusion_off this sd event device_id data_key ts content :
  FLAGS_show_fused_objects flags = false ->
  let r := GetFrameData flags this sd event device_id data_key ts content in
  fusion_content (fst r) = fusion_content content /\
  lookups FusionSharedData (snd r) = O.
Proof.
  intros Hf. chain_cases; try (split; reflexivity); congruence.
Qed.

(** The chain never touches the frame timestamp. *)
Lemma GetFrameData_chain_timestamp this sd event device_id data_key ts
    content :
  frame_timestamp
    (snd (fst (GetFrameData_chain flags this sd event device_id data_key ts
                 content)))
  = frame_timestamp content.
Proof. chain_cases; reflexivity. Qed.

(** A failed lookup returns before the frame timestamp is updated. *)
Lemma GetFrameData_timestamp_return this sd event device_id data_key ts
    content c tr :
  GetFrameData_chain flags this sd event device_id data_key ts content
    = (Return, c, tr) ->
  frame_timestamp
    (fst (GetFrameData flags this sd event device_id data_key ts content))
  = frame_timestamp content.
Proof.
  intros Hc. rewrite (GetFrameData_return _ _ _ _ _ _ _ _ _ Hc). simpl.
  pose proof (GetFrameData_chain_timestamp this sd event device_id data_key
                ts content) as Ht.
  rewrite Hc in Ht. exact Ht.
Qed.

(** What a missing payload leaves of the snapshot. *)
Lemma GetFrameData_missing_payload this sd event device_id data_key ts
    content :
  let c' := fst (GetFrameData flags this sd event device_id data_key ts
                   content) in
  (payload (radar_object_data_ sd) data_key = None ->
   radar_content c' = radar_content content) /\
  (payload (fusion_data_ sd) data_key = None ->
   fusion_content c' = fusion_content content) /\
  (payload (camera_shared_data_ sd) data_key = None ->
   image_content c' = image_content content /\
   camera_content c' = camera_content content) /\
  (branch_of this event = CameraBranch ->
   payload (camera_object_data_ sd) data_key = None ->
   camera_content c' = camera_content content) /\
  (branch_of this event = CipvBranch ->
   payload (cipv_object_data_ sd) data_key = None ->
   camera_content c' = camera_content content) /\
  (forall item,
     branch_of this event = CameraBranch \/
     branch_of this event = CipvBranch ->
     show_camera flags = true ->
     payload (camera_shared_data_ sd) data_key = Some item ->
     image_content c' = Some (ts, image_src_mat item)).
Proof.
  unfold branch_of.
  repeat split; intros; chain_cases; try reflexivity; try congruence;
    try (split; reflexivity); intuition congruence.
Qed.

End GetFrameDataFacts.

(** ** The event manager and [SubscribeEvents] *)

Lemma Subscribe_nonblocking_never_waits (em : EventManager) id event :
  Subscribe em id event true <> Waits.
Proof.
  unfold Subscribe. destruct (em !! id) as [[|e q]|]; discriminate.
Qed.

(** With fuel above the queue length the polling loop returns everything
    queued, in order, and the poll on the event manager it leaves fails:
    the loop ended on its condition, not on the fuel. *)
Lemma drain_spec fuel (em : EventManager) id event events :
  (queue_length em id < fuel)%nat ->
  exists event' em',
    drain fuel em id event events
      = (events ++ default [] (em !! id), event', em') /\
    Subscribe em' id event' true = Result false event' em'.
Proof.
  revert em event events.
  induction fuel as [|fuel IH]; intros em event events Hlt; [lia|].
  simpl. unfold Subscribe at 1. unfold queue_length in Hlt.
  destruct (em !! id) as [[|e q]|] eqn:Hq; simpl in *.
  - exists event, em. split; [|unfold Subscribe; rewrite Hq; reflexivity].
    rewrite app_nil_r. reflexivity.
  - destruct (IH (<[id := q]> em) e (events ++ [e])) as (ev' & em' & Hd & Hs).
    { unfold queue_length. rewrite lookup_insert_eq. lia. }
    exists ev', em'. split; [|exact Hs].
    rewrite Hd, lookup_insert_eq. simpl. rewrite <- app_assoc. reflexivity.
  - exists event, em. split; [|unfold Subscribe; rewrite Hq; reflexivity].
    rewrite app_nil_r. reflexivity.
Qed.

(** [SubscribeEvents] has a single [return true]. *)
Lemma SubscribeEvents_ok this event_meta events em ok events' em' :
  SubscribeEvents this event_meta events em
    = SubscribeReturns ok events' em' ->
  ok = true.
Proof.
  unfold SubscribeEvents. repeat case_match; congruence.
Qed.

(** What it returns for a kind other than the driving one. *)
Lemma SubscribeEvents_other this event_meta events (em : EventManager) :
  meta_event_id event_meta <> vis_driven_event_id_ this ->
  exists em',
    SubscribeEvents this event_meta events em
      = SubscribeReturns true
          (events ++ default [] (em !! meta_event_id event_meta)) em'.
Proof.
  intros Hne. unfold SubscribeEvents.
  apply Z.eqb_neq in Hne. rewrite Hne.
  destruct (drain_spec (S (queue_length em (meta_event_id event_meta))) em
              (meta_event_id event_meta) default_Event events)
    as (ev' & em' & Hd & _); [lia|].
  rewrite Hd. exists em'. reflexivity.
Qed.

(** What it returns for the driving kind: the blocking call's result is
    not looked at. *)
Lemma SubscribeEvents_driving this event_meta events em ok event' em' :
  meta_event_id event_meta = vis_driven_event_id_ this ->
  Subscribe em (meta_event_id event_meta) default_Event false
    = Result ok event' em' ->
  SubscribeEvents this event_meta events em
    = SubscribeReturns true (events ++ [event']) em'.
Proof.
  intros Hid Hs. unfold SubscribeEvents.
  apply Z.eqb_eq in Hid. rewrite Hid, Hs. reflexivity.
Qed.

(** ** One dispatch cycle *)

Lemma same_config_refl a : same_config a a.
Proof. destruct a; reflexivity. Qed.

Lemma same_config_trans a b c :
  same_config a b -> same_config b c -> same_config a c.
Proof.
  unfold same_config. intros Hab Hbc. rewrite Hbc at 1. rewrite Hab.
  reflexivity.
Qed.

Lemma same_config_driven a b :
  same_config a b -> vis_driven_event_id_ b = vis_driven_event_id_ a.
Proof. intros ->. reflexivity. Qed.

Lemma same_config_metas a b :
  same_config a b -> sub_meta_events_ b = sub_meta_events_ a.
Proof. intros ->. reflexivity. Qed.

Lemma dispatch_trace_app b tr1 b1 tr2 b2 :
  dispatch_trace b tr1 b1 -> dispatch_trace b1 tr2 b2 ->
  dispatch_trace b (tr1 ++ tr2) b2.
Proof.
  intros H1 H2. induction H1; simpl; try constructor; auto.
Qed.

Lemma dispatch_trace_gets b tr :
  forallb is_get tr = true -> dispatch_trace b tr b.
Proof.
  induction tr as [|a tr IH]; [constructor|].
  destruct a; simpl; try discriminate. intros H. constructor. auto.
Qed.

Lemma dispatch_trace_initialized b tr b' :
  dispatch_trace b tr b' -> b = true -> b' = true /\ count_init tr = O.
Proof.
  induction 1; intros Hb; try discriminate;
    [split; [exact Hb | reflexivity] | exact (IHdispatch_trace Hb) ..].
Qed.

Lemma dispatch_trace_count b tr b' :
  dispatch_trace b tr b' -> b = false ->
  count_init tr = (if b' then 1 else 0)%nat.
Proof.
  induction 1; intros Hb; try discriminate; subst.
  - reflexivity.
  - exact (IHdispatch_trace eq_refl).
  - destruct (dispatch_trace_initialized _ _ _ H eq_refl) as [-> Hc].
    change (S (count_init tr) = 1%nat). rewrite Hc. reflexivity.
Qed.

Lemma dispatch_trace_rendered b tr b' :
  dispatch_trace b tr b' -> b = false ->
  (b' = true <-> renders tr <> []).
Proof.
  induction 1; intros Hb; try discriminate; subst; simpl.
  - split; [discriminate | congruence].
  - exact (IHdispatch_trace eq_refl).
  - destruct (dispatch_trace_initialized _ _ _ H eq_refl) as [-> _].
    split; [discriminate | reflexivity].
Qed.

Lemma count_init_split pre post :
  (1 <= count_init (pre ++ Visualizer_init :: post))%nat.
Proof. rewrite count_init_app. unfold count_init at 2. simpl. lia. Qed.

Lemma dispatch_trace_init_position b tr b' :
  dispatch_trace b tr b' -> b = false ->
  forall pre post, tr = pre ++ Visualizer_init :: post ->
  renders pre = [] /\ count_init pre = O /\
  exists c post',
    post = Visualizer_update_camera_system c :: Visualizer_render c :: post'
    /\ count_init post' = O.
Proof.
  induction 1; intros Hb pre post Heq; try discriminate; subst.
  - destruct pre; discriminate.
  - destruct pre as [|a pre]; [discriminate|].
    injection Heq as <- ->.
    destruct (IHdispatch_trace eq_refl pre post eq_refl) as (Hr & Hc & Hex).
    repeat split; assumption.
  - destruct (dispatch_trace_initialized _ _ _ H eq_refl) as [_ Hc].
    destruct pre as [|a pre].
    + injection Heq as <-. repeat split; try reflexivity.
      exists c, tr. split; [reflexivity | exact Hc].
    + injection Heq as <- Heq. exfalso.
      pose proof (count_init_split pre post) as Hge.
      rewrite <- Heq in Hge. change (1 <= count_init tr)%nat in Hge. lia.
Qed.

Section ProcEventsFacts.

Variable flags : Flags.
Variable ProduceSharedDataKey : float -> string -> option string.

Local Abbreviation ProcEvents_event' :=
  (ProcEvents_event flags ProduceSharedDataKey).
Local Abbreviation ProcEvents_events' :=
  (ProcEvents_events flags ProduceSharedDataKey).
Local Abbreviation ProcEvents_metas' :=
  (ProcEvents_metas flags ProduceSharedDataKey).
Local Abbreviation ProcEvents' := (ProcEvents flags ProduceSharedDataKey).

Lemma same_config_GetFrameData a b :
  same_config a b -> GetFrameData flags b = GetFrameData flags a.
Proof. intros ->. reflexivity. Qed.

Lemma same_config_SubscribeEvents a b :
  same_config a b -> SubscribeEvents b = SubscribeEvents a.
Proof. intros ->. reflexivity. Qed.

(** *** The loop body *)

Lemma ProcEvents_event_key_failure this sd event_meta ev :
  ProduceSharedDataKey (timestamp ev) (reserve ev) = None ->
  ProcEvents_event' this sd event_meta ev = (inl Failed_to_proc_events, []).
Proof. intros Hk. unfold ProcEvents_event. rewrite Hk. reflexivity. Qed.

Lemma ProcEvents_event_key_ok this sd event_meta ev data_key :
  ProduceSharedDataKey (timestamp ev) (reserve ev) = Some data_key ->
  ProcEvents_event' this sd event_meta ev =
    let r := GetFrameData flags this sd ev (reserve ev) data_key
               (timestamp ev) (content_ this) in
    if meta_event_id event_meta =? vis_driven_event_id_ this then
      ( inr (with_init true (with_content (fst r) this))
      , snd r ++ (if init_ this then [] else [Visualizer_init]) ++
        [Visualizer_update_camera_system (fst r);
         Visualizer_render (fst r)] )
    else (inr (with_content (fst r) this), snd r).
Proof.
  intros Hk. unfold ProcEvents_event. rewrite Hk.
  destruct (GetFrameData flags this sd ev (reserve ev) data_key
              (timestamp ev) (content_ this)) as [c tr].
  reflexivity.
Qed.

(** The status of the loop body is decided by the key derivation alone. *)
Lemma ProcEvents_event_status this sd event_meta ev :
  match ProduceSharedDataKey (timestamp ev) (reserve ev) with
  | Some _ => exists this', fst (ProcEvents_event' this sd event_meta ev)
                            = inr this'
  | None => fst (ProcEvents_event' this sd event_meta ev)
            = inl Failed_to_proc_events
  end.
Proof.
  destruct (ProduceSharedDataKey (timestamp ev) (reserve ev)) as [k|] eqn:Hk.
  - rewrite (ProcEvents_event_key_ok _ _ _ _ _ Hk). simpl.
    destruct (_ =? _); eexists; reflexivity.
  - rewrite (ProcEvents_event_key_failure _ _ _ _ Hk). reflexivity.
Qed.

Lemma ProcEvents_event_config this sd event_meta ev this' tr :
  ProcEvents_event' this sd event_meta ev = (inr this', tr) ->
  same_config this this'.
Proof.
  destruct (ProduceSharedDataKey (timestamp ev) (reserve ev)) as [k|] eqn:Hk.
  - rewrite (ProcEvents_event_key_ok _ _ _ _ _ Hk). simpl.
    destruct (_ =? _); intros [= <- _]; destruct this; reflexivity.
  - rewrite (ProcEvents_event_key_failure _ _ _ _ Hk). discriminate.
Qed.

Lemma ProcEvents_events_config this sd event_meta events :
  same_config this (snd (fst (ProcEvents_events' this sd event_meta events))).
Proof.
  revert this. induction events as [|ev events IH]; intros this; simpl.
  - apply same_config_refl.
  - destruct (ProcEvents_event' this sd event_meta ev) as [[st|this1] tr]
      eqn:He; simpl.
    + apply same_config_refl.
    + specialize (IH this1).
      destruct (ProcEvents_events' this1 sd event_meta events)
        as [[r this2] tr2]; simpl in *.
      eapply same_config_trans; [|exact IH].
      eapply ProcEvents_event_config; exact He.
Qed.

(** *** Renderer calls of the loops *)

Lemma ProcEvents_event_trace this sd event_meta ev this' tr :
  ProcEvents_event' this sd event_meta ev = (inr this', tr) ->
  dispatch_trace (init_ this) tr (init_ this').
Proof.
  destruct (ProduceSharedDataKey (timestamp ev) (reserve ev)) as [k|] eqn:Hk.
  - rewrite (ProcEvents_event_key_ok _ _ _ _ _ Hk). simpl.
    pose proof (GetFrameData_only_gets flags this sd ev (reserve ev) k
                  (timestamp ev) (content_ this)) as Hg.
    destruct (_ =? _); intros [= <- <-]; simpl.
    + eapply dispatch_trace_app;
        [apply dispatch_trace_gets; exact Hg|].
      destruct (init_ this); simpl; repeat constructor.
    + apply dispatch_trace_gets; exact Hg.
  - rewrite (ProcEvents_event_key_failure _ _ _ _ Hk). discriminate.
Qed.

Lemma ProcEvents_events_trace this sd event_meta events :
  let '(_, this', tr) := ProcEvents_events' this sd event_meta events in
  dispatch_trace (init_ this) tr (init_ this').
Proof.
  revert this. induction events as [|ev events IH]; intros this; simpl.
  - constructor.
  - destruct (ProcEvents_event' this sd event_meta ev) as [[st|this1] tr]
      eqn:He.
    + destruct (ProduceSharedDataKey (timestamp ev) (reserve ev))
        as [k|] eqn:Hk.
      * rewrite (ProcEvents_event_key_ok _ _ _ _ _ Hk) in He. simpl in He.
        destruct (_ =? _); discriminate.
      * rewrite (ProcEvents_event_key_failure _ _ _ _ Hk) in He.
        injection He as <- <-. constructor.
    + specialize (IH this1).
      destruct (ProcEvents_events' this1 sd event_meta events)
        as [[r this2] tr2].
      eapply dispatch_trace_app; [|exact IH].
      eapply ProcEvents_event_trace; exact He.
Qed.

Lemma ProcEvents_metas_trace this sd metas em :
  let '(_, this', _, tr) := ProcEvents_metas' this sd metas em in
  dispatch_trace (init_ this) tr (init_ this').
Proof.
  revert this em. induction metas as [|m metas IH]; intros this em; simpl.
  - constructor.
  - destruct (SubscribeEvents this m [] em) as [|[] events em1];
      try constructor.
    pose proof (ProcEvents_events_trace this sd m events) as He.
    destruct (ProcEvents_events' this sd m events) as [[[st|x] this1] tr1];
      [exact He|].
    specialize (IH this1 em1).
    destruct (ProcEvents_metas' this1 sd metas em1)
      as [[[r this2] em2] tr2].
    eapply dispatch_trace_app; eassumption.
Qed.

Lemma run_trace this cycles :
  let '(this', tr) := run flags ProduceSharedDataKey this cycles in
  dispatch_trace (init_ this) tr (init_ this').
Proof.
  revert this. induction cycles as [|[sd em] cycles IH]; intros this; simpl.
  - constructor.
  - pose proof (ProcEvents_metas_trace this sd (sub_meta_events_ this) em)
      as Hc.
    unfold ProcEvents.
    destruct (ProcEvents_metas' this sd (sub_meta_events_ this) em)
      as [[[[|st] this1] em1] tr1]; [exact Hc|].
    specialize (IH this1).
    destruct (run flags ProduceSharedDataKey this1 cycles) as [this2 tr2].
    eapply dispatch_trace_app; eassumption.
Qed.

(** *** Where a cycle returns *)

Lemma ProcEvents_events_cons_ok this sd event_meta ev events this1 tr1 :
  ProcEvents_event' this sd event_meta ev = (inr this1, tr1) ->
  ProcEvents_events' this sd event_meta (ev :: events) =
    let '(r, this2, tr2) := ProcEvents_events' this1 sd event_meta events in
    (r, this2, tr1 ++ tr2).
Proof. intros He. simpl. rewrite He. reflexivity. Qed.

(** The one status the loop over the events returns with. *)
Lemma ProcEvents_events_failure this sd event_meta events st this' tr :
  ProcEvents_events' this sd event_meta events = (inl st, this', tr) ->
  st = Failed_to_proc_events.
Proof.
  revert this this' tr.
  induction events as [|ev events IH]; intros this this' tr; simpl;
    [discriminate|].
  destruct (ProduceSharedDataKey (timestamp ev) (reserve ev)) as [k|] eqn:Hk.
  - rewrite (ProcEvents_event_key_ok _ _ _ _ _ Hk). simpl.
    destruct (_ =? _);
      match goal with
      | |- context [ProcEvents_events' ?t sd event_meta events] =>
          destruct (ProcEvents_events' t sd event_meta events)
            as [[r1 t1] tr1] eqn:H1;
          intros [= -> _ _]; eapply IH; exact H1
      end.
  - rewrite (ProcEvents_event_key_failure _ _ _ _ Hk).
    intros [= <- _ _]. reflexivity.
Qed.

(** The loop over the events of one kind, cut where all events so far
    were processed. *)
Lemma ProcEvents_events_app this sd event_meta pre post x this1 tr1 :
  ProcEvents_events' this sd event_meta pre = (inr x, this1, tr1) ->
  ProcEvents_events' this sd event_meta (pre ++ post) =
    let '(r, this2, tr2) := ProcEvents_events' this1 sd event_meta post in
    (r, this2, tr1 ++ tr2).
Proof.
  revert this tr1. induction pre as [|ev pre IH]; intros this tr1; simpl.
  - intros [= _ <- <-].
    destruct (ProcEvents_events' this sd event_meta post) as [[r t] tr].
    reflexivity.
  - destruct (ProcEvents_event' this sd event_meta ev) as [[st|this0] tr0];
      [discriminate|].
    destruct (ProcEvents_events' this0 sd event_meta pre)
      as [[r0 t0] tr0'] eqn:Hpre.
    intros [= -> -> <-].
    rewrite (IH this0 tr0' Hpre).
    destruct (ProcEvents_events' this1 sd event_meta post) as [[r t] tr].
    rewrite app_assoc. reflexivity.
Qed.

(** The loop over the kinds, cut where it had not returned. *)
Lemma ProcEvents_metas_app this sd metas1 metas2 em this1 em1 tr1 :
  ProcEvents_metas' this sd metas1 em
    = (Returns Status_OK, this1, em1, tr1) ->
  ProcEvents_metas' this sd (metas1 ++ metas2) em =
    let '(r, this2, em2, tr2) := ProcEvents_metas' this1 sd metas2 em1 in
    (r, this2, em2, tr1 ++ tr2).
Proof.
  revert this em tr1.
  induction metas1 as [|m metas1 IH]; intros this em tr1; simpl.
  - intros [= <- <- <-].
    destruct (ProcEvents_metas' this sd metas2 em) as [[[r t] e] tr].
    reflexivity.
  - destruct (SubscribeEvents this m [] em) as [|[] events em0];
      try discriminate.
    destruct (ProcEvents_events' this sd m events) as [[[st|x] this0] tr0]
      eqn:He.
    + intros [= -> _ _ _].
      apply ProcEvents_events_failure in He. discriminate.
    + destruct (ProcEvents_metas' this0 sd metas1 em0)
        as [[[r0 t0] e0] tr0'] eqn:Hm.
      intros [= -> -> -> <-].
      rewrite (IH this0 em0 tr0' Hm).
      destruct (ProcEvents_metas' this1 sd metas2 em1) as [[[r t] e] tr].
      rewrite app_assoc. reflexivity.
Qed.

(** C6.  When the key of an event cannot be derived, [ProcEvents]
    returns the failure status at once: with the kinds [metas1] done,
    the events [pre] of the next kind processed and the derivation
    failing for the event after them, the cycle ends in the state and
    with the calls reached after [pre]; the events [post] behind it and
    the kinds [metas2] behind its kind play no part: they are not
    processed and the event manager is the one left by the subscribe of
    the failing event's kind. *)
Theorem ProcEvents_key_failure_aborts this sd metas1 event_meta metas2 em
    this1 em1 tr1 pre ev post em2 x this2 tr2 :
  ProcEvents_metas' this sd metas1 em
    = (Returns Status_OK, this1, em1, tr1) ->
  SubscribeEvents this1 event_meta [] em1
    = SubscribeReturns true (pre ++ ev :: post) em2 ->
  ProcEvents_events' this1 sd event_meta pre = (inr x, this2, tr2) ->
  ProduceSharedDataKey (timestamp ev) (reserve ev) = None ->
  ProcEvents_metas' this sd (metas1 ++ event_meta :: metas2) em
    = (Returns Failed_to_proc_events, this2, em2, tr1 ++ tr2).
Proof.
  intros H1 Hs Hpre Hk.
  rewrite (ProcEvents_metas_app _ _ _ _ _ _ _ _ H1).
  simpl. rewrite Hs.
  rewrite (ProcEvents_events_app _ _ _ _ _ _ _ _ Hpre). simpl.
  rewrite (ProcEvents_event_key_failure _ _ _ _ Hk).
  rewrite app_nil_r. reflexivity.
Qed.

(** *** What is rendered *)

Local Abbreviation snapshots' := (snapshots flags ProduceSharedDataKey).

Lemma last_cons_default {A} (a d : A) l :
  List.last (a :: l) d = List.last l a.
Proof.
  revert a d. induction l as [|b l IH]; intros a d; [reflexivity|].
  change (List.last (b :: l) d = List.last (b :: l) a).
  rewrite (IH b d), (IH b a). reflexivity.
Qed.

Lemma last_app_default {A} (l1 l2 : list A) d :
  List.last (l1 ++ l2) d = List.last l2 (List.last l1 d).
Proof.
  revert d. induction l1 as [|a l1 IH]; intros d; [reflexivity|].
  rewrite <- app_comm_cons, !last_cons_default. apply IH.
Qed.

Lemma ProcEvents_events_snapshots this0 this sd event_meta events rest :
  same_config this0 this ->
  let '(r, this', tr) := ProcEvents_events' this sd event_meta events in
  exists snaps,
    renders tr = map snd (List.filter (driving_snapshot this0) snaps) /\
    content_ this' = List.last (map snd snaps) (content_ this) /\
    snapshots' this0 sd (content_ this)
      (map (pair event_meta) events ++ rest)
    = match r with
      | inl _ => snaps
      | inr _ => snaps ++ snapshots' this0 sd (content_ this') rest
      end.
Proof.
  revert this. induction events as [|ev events IH]; intros this Hcfg.
  - exists []. repeat split; reflexivity.
  - simpl.
    destruct (ProduceSharedDataKey (timestamp ev) (reserve ev))
      as [k|] eqn:Hk.
    + rewrite (ProcEvents_event_key_ok _ _ _ _ _ Hk).
      rewrite (same_config_GetFrameData _ _ Hcfg).
      pose proof (GetFrameData_only_gets flags this0 sd ev (reserve ev) k
                    (timestamp ev) (content_ this)) as Hg.
      destruct (GetFrameData flags this0 sd ev (reserve ev) k
                  (timestamp ev) (content_ this)) as [c gets].
      simpl in Hg. cbn [fst snd].
      set (this1 := if meta_event_id event_meta =? vis_driven_event_id_ this
                    then with_init true (with_content c this)
                    else with_content c this).
      assert (Hcfg1 : same_config this0 this1).
      { eapply same_config_trans; [exact Hcfg|].
        unfold this1. destruct (_ =? _); destruct this; reflexivity. }
      assert (Hc1 : content_ this1 = c).
      { unfold this1. destruct (_ =? _); reflexivity. }
      specialize (IH this1 Hcfg1). rewrite Hc1 in IH.
      assert (Hd : driving_snapshot this0 (event_meta, c)
                   = (meta_event_id event_meta =? vis_driven_event_id_ this)).
      { unfold driving_snapshot, is_driving. simpl.
        rewrite (same_config_driven _ _ Hcfg). reflexivity. }
      unfold this1 in IH.
      destruct (meta_event_id event_meta =? vis_driven_event_id_ this);
        destruct (ProcEvents_events' _ sd event_meta events)
          as [[r this2] tr2];
        destruct IH as (snaps & Hr & Hl & Hs);
        exists ((event_meta, c) :: snaps);
        (split; [|split]).
      1, 4: cbn [List.filter]; rewrite Hd, !renders_app,
              (gets_no_render _ Hg), Hr; try destruct (init_ this);
            reflexivity.
      1, 3: cbn [map snd]; rewrite last_cons_default; exact Hl.
      1, 2: rewrite Hs; destruct r; reflexivity.
    + rewrite (ProcEvents_event_key_failure _ _ _ _ Hk).
      exists []. repeat split; reflexivity.
Qed.

Lemma ProcEvents_metas_snapshots this0 this sd metas em :
  same_config this0 this ->
  let '(_, this', _, tr) := ProcEvents_metas' this sd metas em in
  let snaps :=
    snapshots' this0 sd (content_ this) (worklist this0 metas em) in
  renders tr = map snd (List.filter (driving_snapshot this0) snaps) /\
  content_ this' = List.last (map snd snaps) (content_ this).
Proof.
  revert this em.
  induction metas as [|m metas IH]; intros this em Hcfg; simpl.
  - split; reflexivity.
  - rewrite (same_config_SubscribeEvents _ _ Hcfg).
    destruct (SubscribeEvents this0 m [] em) as [|ok events em1] eqn:Hs;
      [split; reflexivity|].
    rewrite (SubscribeEvents_ok _ _ _ _ _ _ _ Hs).
    pose proof (ProcEvents_events_snapshots this0 this sd m events
                  (worklist this0 metas em1) Hcfg) as He.
    pose proof (ProcEvents_events_config this sd m events) as Hcfg1.
    destruct (ProcEvents_events' this sd m events) as [[r this1] tr1].
    simpl in Hcfg1.
    destruct He as (snaps & Hr & Hl & Hsn). rewrite Hsn.
    destruct r as [st|x]; [split; assumption|].
    specialize (IH this1 em1 (same_config_trans _ _ _ Hcfg Hcfg1)).
    destruct (ProcEvents_metas' this1 sd metas em1)
      as [[[r2 this2] em2] tr2].
    destruct IH as [Hr2 Hl2]. cbv zeta.
    rewrite renders_app, List.filter_app, !map_app, last_app_default.
    rewrite Hr, Hr2, Hl2, Hl. split; reflexivity.
Qed.

(** C4.  The snapshots a cycle hands to [render] are, in order, the
    snapshots right after the correlation of each event subscribed
    under the driving identifier: one render for each such event, none
    for the events of the other kinds, every one on the snapshot that
    accumulates the correlation of all events processed before it,
    from the snapshot the earlier cycles left in [content_].  In the
    calls of the loop body the render stands right behind the lookups of
    the event's own [GetFrameData], with only [init()] (the first time)
    and [update_camera_system] in between, on the snapshot that
    [GetFrameData] returned. *)
Theorem ProcEvents_renders this sd em :
  (let '(_, this', _, tr) := ProcEvents' this sd em in
   let snaps :=
     snapshots' this sd (content_ this)
       (worklist this (sub_meta_events_ this) em) in
   renders tr = map snd (List.filter (driving_snapshot this) snaps) /\
   content_ this' = List.last (map snd snaps) (content_ this)) /\
  (forall event_meta ev data_key,
     ProduceSharedDataKey (timestamp ev) (reserve ev) = Some data_key ->
     let r := GetFrameData flags this sd ev (reserve ev) data_key
                (timestamp ev) (content_ this) in
     snd (ProcEvents_event' this sd event_meta ev) =
       snd r ++
       if is_driving this event_meta then
         (if init_ this then [] else [Visualizer_init]) ++
         [Visualizer_update_camera_system (fst r); Visualizer_render (fst r)]
       else []).
Proof.
  split.
  - exact (ProcEvents_metas_snapshots this this sd (sub_meta_events_ this) em
             (same_config_refl this)).
  - intros event_meta ev data_key Hk.
    rewrite (ProcEvents_event_key_ok _ _ _ _ _ Hk). cbv zeta.
    unfold is_driving. destruct (_ =? _); simpl; [reflexivity|].
    rewrite app_nil_r. reflexivity.
Qed.

(** *** A property of every call of a run *)

Section TraceForall.

Variable Q : Action -> bool.
Hypothesis Q_init : Q Visualizer_init = true.
Hypothesis Q_update :
  forall c, Q (Visualizer_update_camera_system c) = true.
Hypothesis Q_render : forall c, Q (Visualizer_render c) = true.
Hypothesis Q_GetFrameData :
  forall this sd ev device_id data_key ts content,
    forallb Q
      (snd (GetFrameData flags this sd ev device_id data_key ts content))
    = true.

Lemma ProcEvents_event_forall this sd event_meta ev :
  forallb Q (snd (ProcEvents_event' this sd event_meta ev)) = true.
Proof.
  destruct (ProduceSharedDataKey (timestamp ev) (reserve ev))
    as [k|] eqn:Hk.
  - rewrite (ProcEvents_event_key_ok _ _ _ _ _ Hk). cbv zeta.
    destruct (_ =? _); simpl; [|apply Q_GetFrameData].
    rewrite forallb_app, Q_GetFrameData.
    destruct (init_ this); simpl;
      rewrite ?Q_init, Q_update, Q_render; reflexivity.
  - rewrite (ProcEvents_event_key_failure _ _ _ _ Hk). reflexivity.
Qed.

Lemma ProcEvents_events_forall this sd event_meta events :
  forallb Q (snd (ProcEvents_events' this sd event_meta events)) = true.
Proof.
  revert this. induction events as [|ev events IH]; intros this; simpl;
    [reflexivity|].
  pose proof (ProcEvents_event_forall this sd event_meta ev) as He.
  destruct (ProcEvents_event' this sd event_meta ev) as [[st|this1] tr];
    [exact He|].
  specialize (IH this1).
  destruct (ProcEvents_events' this1 sd event_meta events)
    as [[r this2] tr2].
  simpl in *. rewrite forallb_app, He, IH. reflexivity.
Qed.

Lemma ProcEvents_metas_forall this sd metas em :
  forallb Q (snd (ProcEvents_metas' this sd metas em)) = true.
Proof.
  revert this em. induction metas as [|m metas IH]; intros this em; simpl;
    [reflexivity|].
  destruct (SubscribeEvents this m [] em) as [|[] events em1];
    try reflexivity.
  pose proof (ProcEvents_events_forall this sd m events) as He.
  destruct (ProcEvents_events' this sd m events) as [[[st|x] this1] tr1];
    [exact He|].
  specialize (IH this1 em1).
  destruct (ProcEvents_metas' this1 sd metas em1)
    as [[[r this2] em2] tr2].
  simpl in *. rewrite forallb_app, He, IH. reflexivity.
Qed.

Lemma run_forall this cycles :
  forallb Q (snd (run flags ProduceSharedDataKey this cycles)) = true.
Proof.
  revert this. induction cycles as [|[sd em] cycles IH]; intros this;
    simpl; [reflexivity|].
  pose proof (ProcEvents_metas_forall this sd (sub_meta_events_ this) em)
    as Hc.
  unfold ProcEvents.
  destruct (ProcEvents_metas' this sd (sub_meta_events_ this) em)
    as [[[[|st] this1] em1] tr1]; [exact Hc|].
  specialize (IH this1).
  destruct (run flags ProduceSharedDataKey this1 cycles) as [this2 tr2].
  simpl in *. rewrite forallb_app, Hc, IH. reflexivity.
Qed.

End TraceForall.

Lemma lookups_none st tr :
  forallb (fun a => negb (is_get_on st a)) tr = true <-> lookups st tr = O.
Proof.
  unfold lookups. induction tr as [|a tr IH]; simpl; [tauto|].
  destruct (is_get_on st a) eqn:Ha; simpl.
  - rewrite filter_cons_True by exact Ha. simpl. split; discriminate.
  - rewrite filter_cons_False by (rewrite Ha; discriminate). exact IH.
Qed.

(** With no lookup on a store in any [GetFrameData], no run has one. *)
Lemma run_no_lookups st :
  (forall this sd ev device_id data_key ts content,
      lookups st
        (snd (GetFrameData flags this sd ev device_id data_key ts content))
      = O) ->
  forall this cycles,
    lookups st (snd (run flags ProduceSharedDataKey this cycles)) = O.
Proof.
  intros Hg this cycles. apply lookups_none.
  apply run_forall; try (intros; destruct st; reflexivity).
  intros. apply lookups_none, Hg.
Qed.

(** *** Subscription failure, renderer initialization, correlation *)

(** C1, as the code has it.  The result of the blocking subscribe is
    not looked at: when it fails for the driving kind,
    [SubscribeEvents] still returns [true] with the event left in
    [event] appended, and [ProcEvents] goes on with it as the driving
    event of the cycle.  The cycle returns a failure only when the key
    of that event cannot be derived; when it can, the event is
    correlated and the snapshot is rendered once for it. *)
Theorem ProcEvents_driving_subscribe_failure this sd event_meta metas em
    event' em' :
  meta_event_id event_meta = vis_driven_event_id_ this ->
  Subscribe em (meta_event_id event_meta) default_Event false
    = Result false event' em' ->
  SubscribeEvents this event_meta [] em
    = SubscribeReturns true [event'] em' /\
  ProcEvents_metas' this sd (event_meta :: metas) em =
    match ProcEvents_event' this sd event_meta event' with
    | (inl st, tr) => (Returns st, this, em', tr)
    | (inr this1, tr) =>
        let '(r, this2, em2, tr2) := ProcEvents_metas' this1 sd metas em' in
        (r, this2, em2, tr ++ tr2)
    end /\
  (ProduceSharedDataKey (timestamp event') (reserve event') = None ->
   ProcEvents_event' this sd event_meta event'
     = (inl Failed_to_proc_events, [])) /\
  (forall data_key,
     ProduceSharedDataKey (timestamp event') (reserve event')
       = Some data_key ->
     exists this1 tr,
       ProcEvents_event' this sd event_meta event' = (inr this1, tr) /\
       renders tr = [content_ this1]).
Proof.
  intros Hid Hs.
  pose proof (SubscribeEvents_driving this event_meta [] em _ _ _ Hid Hs)
    as Hsub.
  simpl in Hsub. repeat split.
  - exact Hsub.
  - simpl. rewrite Hsub. simpl.
    destruct (ProcEvents_event' this sd event_meta event')
      as [[st|this1] tr]; [reflexivity|].
    destruct (ProcEvents_metas' this1 sd metas em') as [[[r t] e] tr2].
    rewrite app_nil_r. reflexivity.
  - apply ProcEvents_event_key_failure.
  - intros data_key Hk.
    rewrite (ProcEvents_event_key_ok _ _ _ _ _ Hk). cbv zeta.
    apply Z.eqb_eq in Hid. rewrite Hid.
    eexists _, _. split; [reflexivity|].
    rewrite !renders_app,
      (gets_no_render _ (GetFrameData_only_gets flags this sd event'
                           (reserve event') data_key (timestamp event')
                           (content_ this))).
    destruct (init_ this); reflexivity.
Qed.

(** C3.  Over any number of cycles on an object whose [init_] is false,
    [init()] is called at most once; it is called exactly when some
    snapshot is rendered, that is when a driving event was processed;
    [init_] is set exactly then; and the call stands before every
    render, directly in front of the [update_camera_system] and
    [render] of the first one, with no further [init()] behind. *)
Theorem renderer_init_exactly_once this cycles :
  init_ this = false ->
  let '(this', tr) := run flags ProduceSharedDataKey this cycles in
  (count_init tr <= 1)%nat /\
  (count_init tr = 1%nat <-> renders tr <> []) /\
  (init_ this' = true <-> count_init tr = 1%nat) /\
  (forall pre post, tr = pre ++ Visualizer_init :: post ->
     renders pre = [] /\ count_init pre = O /\
     exists c post',
       post = Visualizer_update_camera_system c :: Visualizer_render c
                :: post'
       /\ count_init post' = O).
Proof.
  intros Hinit. pose proof (run_trace this cycles) as Ht.
  destruct (run flags ProduceSharedDataKey this cycles) as [this' tr].
  rewrite Hinit in Ht.
  pose proof (dispatch_trace_count _ _ _ Ht eq_refl) as Hc.
  pose proof (dispatch_trace_rendered _ _ _ Ht eq_refl) as Hr.
  pose proof (dispatch_trace_init_position _ _ _ Ht eq_refl) as Hp.
  rewrite Hc. split; [destruct (init_ this'); lia|].
  split; [|split; [|exact Hp]].
  - destruct (init_ this').
    + split; [intros _; apply Hr; reflexivity | reflexivity].
    + split; [discriminate | intros H; apply Hr in H; discriminate].
  - destruct (init_ this'); [tauto | split; discriminate].
Qed.

(** Once [init_] is set no cycle calls [init()]. *)
Lemma renderer_init_skipped this cycles :
  init_ this = true ->
  count_init (snd (run flags ProduceSharedDataKey this cycles)) = O.
Proof.
  intros Hinit. pose proof (run_trace this cycles) as Ht.
  destruct (run flags ProduceSharedDataKey this cycles) as [this' tr].
  apply (dispatch_trace_initialized _ _ _ Ht Hinit).
Qed.

(** C7.  With the radar toggle off, or for a device label other than
    "radar_front", [GetFrameData] leaves the radar content of the
    snapshot as it was and performs no lookup on the radar store,
    whatever the event; and the event whose device label is filtered out
    is no failure: the loop body carries on to the next event. *)
Theorem radar_device_filter this sd event_meta ev data_key ts content :
  FLAGS_show_radar_objects flags = false \/ reserve ev <> "radar_front" ->
  ProduceSharedDataKey (timestamp ev) (reserve ev) = Some data_key ->
  (let r := GetFrameData flags this sd ev (reserve ev) data_key ts content in
   radar_content (fst r) = radar_content content /\
   lookups RadarObjectData (snd r) = O) /\
  exists this' tr,
    ProcEvents_event' this sd event_meta ev = (inr this', tr) /\
    radar_content (content_ this') = radar_content (content_ this) /\
    lookups RadarObjectData tr = O.
Proof.
  intros Hf Hk. split.
  - apply GetFrameData_radar_filter. exact Hf.
  - rewrite (ProcEvents_event_key_ok _ _ _ _ _ Hk). cbv zeta.
    destruct (GetFrameData_radar_filter flags this sd ev (reserve ev)
                data_key (timestamp ev) (content_ this) Hf) as [Hc Hl].
    destruct (_ =? _); eexists _, _; (split; [reflexivity|]);
      (split; [exact Hc|]); [|exact Hl].
    rewrite !lookups_app, Hl. destruct (init_ this); reflexivity.
Qed.

(** C8, as the code has it.  A missing payload is no failure: with the
    key derived the loop body carries on to the next event whatever
    the stores hold.  The field the missing payload would have filled
    keeps its value: the radar content without a radar payload, the
    fused obstacles without a fusion payload, the image and the camera
    detections without an image payload, the camera detections of a
    camera (cipv) event without its detection list.  The image is
    written before the detection list is fetched: a camera or cipv
    event with the camera toggle on and an image payload replaces the
    image content, also when the detection list is then missing. *)
Theorem missing_payload_skips this sd event_meta ev data_key :
  ProduceSharedDataKey (timestamp ev) (reserve ev) = Some data_key ->
  exists this' tr,
    ProcEvents_event' this sd event_meta ev = (inr this', tr) /\
    (payload (radar_object_data_ sd) data_key = None ->
     radar_content (content_ this') = radar_content (content_ this)) /\
    (payload (fusion_data_ sd) data_key = None ->
     fusion_content (content_ this') = fusion_content (content_ this)) /\
    (payload (camera_shared_data_ sd) data_key = None ->
     image_content (content_ this') = image_content (content_ this) /\
     camera_content (content_ this') = camera_content (content_ this)) /\
    (branch_of this ev = CameraBranch ->
     payload (camera_object_data_ sd) data_key = None ->
     camera_content (content_ this') = camera_content (content_ this)) /\
    (branch_of this ev = CipvBranch ->
     payload (cipv_object_data_ sd) data_key = None ->
     camera_content (content_ this') = camera_content (content_ this)) /\
    (forall item,
       branch_of this ev = CameraBranch \/ branch_of this ev = CipvBranch ->
       show_camera flags = true ->
       payload (camera_shared_data_ sd) data_key = Some item ->
       image_content (content_ this')
         = Some (timestamp ev, image_src_mat item)).
Proof.
  intros Hk. rewrite (ProcEvents_event_key_ok _ _ _ _ _ Hk). cbv zeta.
  pose proof (GetFrameData_missing_payload flags this sd ev (reserve ev)
                data_key (timestamp ev) (content_ this)) as Hm.
  destruct (_ =? _); eexists _, _; (split; [reflexivity|]); exact Hm.
Qed.

(** C9.  A toggle that is off keeps [GetFrameData] from the stores of
    its kind and from the fields they fill, whatever the event: no
    radar lookup and the radar content kept with the radar toggle off;
    no lookup on the image, camera-detection and cipv-detection stores
    and the image and camera content kept with the three camera toggles
    off; no fusion lookup and the fused obstacles kept with the fusion
    toggle off.  The lookup counts are zero over every run of cycles
    as well. *)
Theorem disabled_toggle_no_lookups this sd ev device_id data_key ts content
    cycles :
  let r := GetFrameData flags this sd ev device_id data_key ts content in
  let tr := snd (run flags ProduceSharedDataKey this cycles) in
  (FLAGS_show_radar_objects flags = false ->
   radar_content (fst r) = radar_content content /\
   lookups RadarObjectData (snd r) = O /\
   lookups RadarObjectData tr = O) /\
  (show_camera flags = false ->
   image_content (fst r) = image_content content /\
   camera_content (fst r) = camera_content content /\
   lookups CameraSharedData (snd r) = O /\
   lookups CameraObjectData (snd r) = O /\
   lookups CIPVObjectData (snd r) = O /\
   lookups CameraSharedData tr = O /\
   lookups CameraObjectData tr = O /\
   lookups CIPVObjectData tr = O) /\
  (FLAGS_show_fused_objects flags = false ->
   fusion_content (fst r) = fusion_content content /\
   lookups FusionSharedData (snd r) = O /\
   lookups FusionSharedData tr = O).
Proof.
  cbv zeta. split; [|split]; intros Hf.
  - destruct (GetFrameData_radar_filter flags this sd ev device_id data_key
                ts content (or_introl Hf)) as [Hc Hl].
    repeat split; try assumption.
    apply run_no_lookups. intros.
    apply GetFrameData_radar_filter. left. exact Hf.
  - destruct (GetFrameData_camera_off flags this sd ev device_id data_key
                ts content Hf) as (Hi & Hc & H1 & H2 & H3).
    repeat split; try assumption;
      apply run_no_lookups; intros;
      apply GetFrameData_camera_off; exact Hf.
  - destruct (GetFrameData_fusion_off flags this sd ev device_id data_key
                ts content Hf) as [Hc Hl].
    repeat split; try assumption.
    apply run_no_lookups. intros.
    apply GetFrameData_fusion_off. exact Hf.
Qed.

End ProcEventsFacts.

(** * The properties on the concrete configuration *)

Import Scenario.

Lemma InitStream_succeeds_iff_required_witness :
  parse reserve_map (reserve_ node0) = Some reserve_map /\
  (fst (InitStream (parse reserve_map) node0) = true
   <-> required_present reserve_map) /\
  (required_present reserve_map ->
   reserve_map !! "motion_event_id" = None ->
   fst (InitStream (parse reserve_map) node0) = true /\
   motion_event_id_ (snd (InitStream (parse reserve_map) node0)) = -1).
Proof.
  split; [reflexivity|].
  apply (InitStream_succeeds_iff_required (parse reserve_map) node0
           reserve_map).
  reflexivity.
Defined.

Lemma required_present_reserve_map_abc : required_present reserve_map_abc.
Proof.
  intros k Hk. simpl in Hk.
  destruct Hk as [<-|[<-|[<-|[<-|[<-|[]]]]]]; eexists; vm_compute;
    reflexivity.
Defined.

Lemma InitStream_no_format_validation_witness :
  reserve_map_abc !! "radar_event_id" = Some "abc" /\
  fst (InitStream (parse reserve_map_abc) node0) = true /\
  stored_id "radar_event_id" (snd (InitStream (parse reserve_map_abc) node0))
  = Some 0.
Proof.
  split; [vm_compute; reflexivity|].
  destruct (InitStream_no_format_validation (parse reserve_map_abc) node0
              reserve_map_abc eq_refl required_present_reserve_map_abc)
    as [Hok Hids].
  split; [exact Hok|].
  apply (Hids "radar_event_id" "abc").
  - simpl. tauto.
  - vm_compute; reflexivity.
  - reflexivity.
Defined.

(** C1 fails on the code.  Nothing is registered with the event manager,
    so the blocking subscribe of the driving kind fails; the cycle
    nevertheless returns [OK] and has rendered once. *)
Lemma driving_subscribe_failure_still_renders :
  Subscribe ∅ (meta_event_id driving_meta) default_Event false
    = Result false default_Event ∅ /\
  let '(r, _, _, tr) := ProcEvents flags_on key_of node_driving sd0 ∅ in
  r = Returns Status_OK /\ renders tr = [content0].
Proof. vm_compute. repeat split; reflexivity. Qed.

Lemma ProcEvents_driving_subscribe_failure_witness :
  SubscribeEvents node_driving driving_meta [] ∅
    = SubscribeReturns true [default_Event] ∅ /\
  exists this1 tr,
    ProcEvents_event flags_on key_of node_driving sd0 driving_meta
      default_Event
      = (inr this1, tr) /\
    renders tr = [content_ this1].
Proof.
  assert (Hfail : Subscribe ∅ (meta_event_id driving_meta) default_Event false
                  = Result false default_Event ∅)
    by (vm_compute; reflexivity).
  destruct (ProcEvents_driving_subscribe_failure flags_on key_of
              node_driving sd0 driving_meta [] ∅ default_Event ∅ eq_refl Hfail)
    as (Hs & _ & _ & Hr).
  split; [exact Hs|]. apply (Hr ""). reflexivity.
Defined.

(** C2, where the code departs from it.  The camera event carries the
    driving identifier and the camera toggle is on, but no image is
    stored under its key: [GetFrameData] leaves through the [return;] of
    the camera branch, the update behind the chain is not reached, and
    the frame timestamp keeps its old value 0 instead of the event's
    3. *)
Lemma driving_timestamp_not_updated :
  event_id camera_ev = vis_driven_event_id_ node0 /\
  frame_timestamp
    (fst (GetFrameData flags_on node0 sd_empty camera_ev (reserve camera_ev)
            "camera" (timestamp camera_ev) content0))
  = frame_timestamp content0 /\
  frame_timestamp
    (fst (GetFrameData flags_on node0 sd_empty camera_ev (reserve camera_ev)
            "camera" (timestamp camera_ev) content0))
  <> timestamp camera_ev.
Proof.
  split; [reflexivity|]. split; [vm_compute; reflexivity|].
  intros H.
  apply (f_equal (fun x => PrimFloat.eqb x 3%float)) in H.
  vm_compute in H. discriminate.
Qed.

Lemma renderer_init_exactly_once_witness :
  count_init (snd (run flags_on key_of node0 [(sd0, em1); (sd0, em1)]))
  = 1%nat /\
  length (renders (snd (run flags_on key_of node0 [(sd0, em1); (sd0, em1)])))
  = 2%nat.
Proof.
  pose proof (renderer_init_exactly_once flags_on key_of node0
                [(sd0, em1); (sd0, em1)] eq_refl) as H.
  destruct (run flags_on key_of node0 [(sd0, em1); (sd0, em1)])
    as [this' tr] eqn:Hrun.
  destruct H as (_ & Hiff & _ & _). simpl. split.
  - apply Hiff. vm_compute in Hrun. injection Hrun as _ <-. discriminate.
  - vm_compute in Hrun. injection Hrun as _ <-. reflexivity.
Defined.

Lemma ProcEvents_key_failure_aborts_witness :
  ProcEvents_metas flags_on key_of node0 sd0
    ([radar_meta] ++ fusion_meta :: [driving_meta]) em0
  = (Returns Failed_to_proc_events, after_fusion_ev, em_after_fusion,
     [SharedGet RadarObjectData "radar_front"] ++
     [SharedGet FusionSharedData "fusion"]).
Proof.
  apply (ProcEvents_key_failure_aborts flags_on key_of node0 sd0
           [radar_meta] fusion_meta [driving_meta] em0
           after_radar em_after_radar [SharedGet RadarObjectData "radar_front"]
           [fusion_ev] unkeyed_ev [fusion_ev] em_after_fusion
           after_fusion_ev after_fusion_ev
           [SharedGet FusionSharedData "fusion"]);
    vm_compute; reflexivity.
Defined.

Lemma radar_device_filter_witness :
  radar_object_data_ sd0 !! "radar_rear" = Some (Some (mkSensorObjects [9] [] 0))
  /\
  exists this' tr,
    ProcEvents_event flags_on key_of node0 sd0 radar_meta radar_rear_ev
      = (inr this', tr) /\
    radar_content (content_ this') = radar_content (content_ node0) /\
    lookups RadarObjectData tr = O.
Proof.
  split; [vm_compute; reflexivity|].
  apply (radar_device_filter flags_on key_of node0 sd0 radar_meta
           radar_rear_ev "radar_rear" 1%float content0).
  - right. discriminate.
  - reflexivity.
Defined.

(** C8 fails on the code.  The camera event finds its image but not its
    detection list, and the image content of the snapshot is replaced all
    the same. *)
Lemma missing_detections_image_written :
  branch_of node0 camera_ev = CameraBranch /\
  payload (camera_object_data_ sd0) "camera" = None /\
  image_content content0 = None /\
  image_content
    (fst (GetFrameData flags_on node0 sd0 camera_ev (reserve camera_ev)
            "camera" (timestamp camera_ev) content0))
  = Some (3%float, [1; 2; 3]) /\
  fst (GetFrameData flags_on node0 sd0 camera_ev (reserve camera_ev)
         "camera" (timestamp camera_ev) content0)
  <> content0.
Proof.
  repeat split; try (vm_compute; reflexivity).
  intros H. apply (f_equal image_content) in H. vm_compute in H.
  discriminate.
Qed.

Lemma missing_payload_skips_witness :
  exists this' tr,
    ProcEvents_event flags_on key_of node0 sd0 driving_meta camera_ev
      = (inr this', tr) /\
    camera_content (content_ this') = camera_content (content_ node0) /\
    image_content (content_ this') = Some (3%float, [1; 2; 3]).
Proof.
  destruct (missing_payload_skips flags_on key_of node0 sd0 driving_meta
              camera_ev "camera" eq_refl)
    as (this' & tr & He & _ & _ & _ & Hcam & _ & Himg).
  exists this', tr. split; [exact He|]. split.
  - apply Hcam; vm_compute; reflexivity.
  - apply (Himg (mkCameraItem [1; 2; 3])).
    + left. reflexivity.
    + reflexivity.
    + vm_compute; reflexivity.
Defined.

Lemma disabled_toggle_no_lookups_witness :
  GetFrameData flags_off node0 sd0 radar_front_ev "radar_front" "radar_front"
    1%float content0 = (content0, []) /\
  lookups RadarObjectData
    (snd (run flags_off key_of node0 [(sd0, em1); (sd0, em1)])) = O /\
  lookups CameraSharedData
    (snd (run flags_off key_of node0 [(sd0, em1); (sd0, em1)])) = O /\
  lookups FusionSharedData
    (snd (run flags_off key_of node0 [(sd0, em1); (sd0, em1)])) = O.
Proof.
  split; [vm_compute; reflexivity|].
  destruct (disabled_toggle_no_lookups flags_off key_of node0 sd0
              radar_front_ev "radar_front" "radar_front" 1%float content0
              [(sd0, em1); (sd0, em1)])
    as (Hr & Hc & Hf).
  destruct (Hr eq_refl) as (_ & _ & Hr3).
  destruct (Hc eq_refl) as (_ & _ & _ & _ & _ & Hc6 & _).
  destruct (Hf eq_refl) as (_ & _ & Hf3).
  repeat split; assumption.
Defined.

(** A cycle on [em0] with the unkeyed event taken out: the radar and
    fusion events render nothing, the camera event renders once, on a
    snapshot holding the radar and fusion content correlated before it. *)
Lemma ProcEvents_renders_witness :
  renders (snd (ProcEvents flags_on key_of node0 sd0 em1))
  = [ mkFrameContent IMAGE_CONTINUOUS [] (Some (3%float, [1; 2; 3])) None
        (Some (1%float, [7; 8])) (Some (1%float, [7; 8; 9])) 0%float ].
Proof.
  pose proof (ProcEvents_renders flags_on key_of node0 sd0 em1) as [H _].
  destruct (ProcEvents flags_on key_of node0 sd0 em1) as [[[r this'] em'] tr].
  destruct H as [H _]. simpl. rewrite H. vm_compute. reflexivity.
Defined.

(** * Further properties of the code *)

(** ** Initialization *)

Lemma non_null_dynamic_cast cls (mgr : gmap string StoreName) name :
  non_null (dynamic_cast cls (mgr !! name)) = true <->
  mgr !! name = Some cls.
Proof.
  unfold dynamic_cast. destruct (mgr !! name) as [c|]; simpl.
  - destruct c, cls; simpl; split; congruence.
  - split; discriminate.
Qed.

Lemma dynamic_cast_class cls ptr c :
  dynamic_cast cls ptr = Some c -> c = cls.
Proof.
  unfold dynamic_cast. destruct ptr as [c'|]; [|discriminate].
  destruct c', cls; simpl; congruence.
Qed.

Lemma stores_ok_spec flags (mgr : gmap string StoreName) :
  stores_ok flags mgr = true <->
  forall st, store_needed flags st = true -> mgr !! store_name st = Some st.
Proof.
  unfold stores_ok. rewrite forallb_forall. split.
  - intros H st Hn. apply non_null_dynamic_cast.
    assert (Hin : In st all_stores) by (destruct st; simpl; tauto).
    specialize (H st Hin). rewrite Hn in H. exact H.
  - intros H st _. destruct (store_needed flags st) eqn:Hn; [|reflexivity].
    simpl. apply non_null_dynamic_cast. apply H. exact Hn.
Qed.

Section InitInternalFacts.

Variable flags : Flags.
Variable ParseReserveField : string -> option (gmap string string).

Local Abbreviation InitInternal' := (InitInternal flags ParseReserveField).
Local Abbreviation InitStream' := (InitStream ParseReserveField).

Lemma InitStream_true_iff this :
  fst (InitStream' this) = true <->
  exists m, ParseReserveField (reserve_ this) = Some m /\ required_present m.
Proof.
  split.
  - intros Hok.
    destruct (ParseReserveField (reserve_ this)) as [m|] eqn:Hp.
    + exists m. split; [reflexivity|]. intros k Hk.
      destruct (m !! k) as [v|] eqn:Hl; [eexists; reflexivity|].
      rewrite (InitStream_absent ParseReserveField this m k Hp Hk Hl) in Hok.
      discriminate.
    + unfold InitStream in Hok. rewrite Hp in Hok. discriminate.
  - intros (m & Hp & Hall). apply required_present_lookups in Hall.
    destruct Hall as ([v1 H1] & [v2 H2] & [v3 H3] & [v4 H4] & [v5 H5]).
    rewrite (InitStream_present ParseReserveField this m _ _ _ _ _
               Hp H1 H2 H3 H4 H5).
    reflexivity.
Qed.

(** [InitStream] writes identifiers only. *)
Lemma InitStream_frame this :
  let this' := snd (InitStream' this) in
  reserve_ this' = reserve_ this /\
  sub_meta_events_ this' = sub_meta_events_ this /\
  init_ this' = init_ this /\
  content_ this' = content_ this.
Proof.
  unfold InitStream. repeat case_match; simpl; repeat split; reflexivity.
Qed.

(** The flag [InitInternal] returns. *)
Lemma InitInternal_outcome env this p mgr :
  shared_data_manager_ env = Some mgr ->
  fst (fst (fst (InitInternal' env this p))) =
    InitReturned
      (stores_ok flags mgr &&
       bool_decide (FLAGS_frame_visualizer flags ∈ visualizers env) &&
       fst (InitStream' this)).
Proof.
  intros Hm.
  assert (Hs : forall c,
             fst (InitStream' (with_content c this)) = fst (InitStream' this)).
  { intros c. unfold InitStream. simpl. repeat case_match; reflexivity. }
  rewrite <- (Hs (set_pose_type IMAGE_CONTINUOUS (content_ this))).
  unfold InitInternal. rewrite Hm.
  destruct (InitStream' (with_content
                           (set_pose_type IMAGE_CONTINUOUS (content_ this))
                           this)) as [ok n].
  unfold stores_ok, all_stores.
  cbn [forallb store_needed store_name fst].
  destruct (FLAGS_show_radar_objects flags), (show_camera flags),
    (FLAGS_show_fused_objects flags);
    repeat match goal with
      | |- context [non_null (dynamic_cast ?c (mgr !! ?n))] =>
          destruct (non_null (dynamic_cast c (mgr !! n)))
      end;
    cbn [negb implb andb fst]; try reflexivity;
    destruct (bool_decide (FLAGS_frame_visualizer flags ∈ visualizers env));
    cbn [negb non_null andb fst]; try reflexivity;
    destruct ok; reflexivity.
Qed.

End InitInternalFacts.

(** ** Stream identifiers *)

Section InitStreamProperties.

Variable ParseReserveField : string -> option (gmap string string).

Local Abbreviation InitStream' := (InitStream ParseReserveField).

(** X6.  [InitStream] is not all-or-nothing.  It overwrites the
    identifier of a required key exactly when that key and all required
    keys looked up before it are in the map, also when a later key is
    missing and it returns [false]; the motion identifier is written
    only once all five are found.  A reserve string that does not parse
    leaves the object as it was. *)
Theorem InitStream_writes_prefix this :
  match ParseReserveField (reserve_ this) with
  | None => InitStream' this = (false, this)
  | Some m =>
      (forall k, In k required_keys ->
         stored_id k (snd (InitStream' this)) =
           if present_upto m required_keys k
           then Some (Atoi.atoi (default "" (m !! k)))
           else stored_id k this) /\
      motion_event_id_ (snd (InitStream' this)) =
        if all_present m required_keys then
          match m !! "motion_event_id" with
          | Some v => Atoi.atoi v
          | None => -1
          end
        else motion_event_id_ this
  end.
Proof.
  unfold InitStream.
  destruct (ParseReserveField (reserve_ this)) as [m|]; [|reflexivity].
  unfold all_present, required_keys. cbn [forallb present_upto].
  split.
  - intros k Hk. cbn [In] in Hk.
    destruct Hk as [<-|[<-|[<-|[<-|[<-|[]]]]]];
      destruct (m !! "vis_driven_event_id"), (m !! "radar_event_id"),
        (m !! "camera_event_id"), (m !! "cipv_event_id"),
        (m !! "fusion_event_id"), (m !! "motion_event_id");
      reflexivity.
  - destruct (m !! "vis_driven_event_id"), (m !! "radar_event_id"),
      (m !! "camera_event_id"), (m !! "cipv_event_id"),
      (m !! "fusion_event_id"), (m !! "motion_event_id"); reflexivity.
Qed.

(** X7.  Running [InitStream] again changes nothing: it returns the same
    flag and leaves the object as the first run left it. *)
Theorem InitStream_idempotent this :
  InitStream ParseReserveField (snd (InitStream ParseReserveField this))
  = InitStream ParseReserveField this.
Proof.
  unfold InitStream.
  destruct (ParseReserveField (reserve_ this)) as [m|] eqn:Hp;
    [|simpl; rewrite Hp; reflexivity].
  destruct (m !! "vis_driven_event_id") eqn:E1,
    (m !! "radar_event_id") eqn:E2, (m !! "camera_event_id") eqn:E3,
    (m !! "cipv_event_id") eqn:E4, (m !! "fusion_event_id") eqn:E5,
    (m !! "motion_event_id") eqn:E6;
    cbn [snd with_vis_driven_event_id with_radar_event_id
           with_camera_event_id with_cipv_event_id with_fusion_event_id
           with_motion_event_id reserve_];
    rewrite Hp, ?E1, ?E2, ?E3, ?E4, ?E5, ?E6; destruct this; reflexivity.
Qed.

End InitStreamProperties.

Lemma non_null_dynamic_cast_Some cls (ptr : option StoreName) :
  non_null (dynamic_cast cls ptr) = true -> dynamic_cast cls ptr = Some cls.
Proof.
  destruct (dynamic_cast cls ptr) as [c|] eqn:Hd; [|discriminate].
  intros _. rewrite (dynamic_cast_class _ _ _ Hd). reflexivity.
Qed.

Lemma non_null_false {A} (ptr : option A) : non_null ptr = false -> ptr = None.
Proof. destruct ptr; [discriminate | reflexivity]. Qed.

Section InitInternalProperties.

Variable flags : Flags.
Variable ParseReserveField : string -> option (gmap string string).
Variable ProduceSharedDataKey : float -> string -> option string.

Local Abbreviation InitInternal' := (InitInternal flags ParseReserveField).
Local Abbreviation InitStream' := (InitStream ParseReserveField).

(** X1.  [InitInternal] returns [true] exactly when the shared-data
    manager is there, every store a toggle needs is registered under its
    name with its class, the visualizer named by the flag is registered,
    and the reserve string parses into a map with the five required
    identifiers. *)
Theorem InitInternal_succeeds_iff env this p :
  fst (fst (fst (InitInternal' env this p))) = InitReturned true <->
  (exists mgr,
     shared_data_manager_ env = Some mgr /\
     forall st, store_needed flags st = true ->
                mgr !! store_name st = Some st) /\
  FLAGS_frame_visualizer flags ∈ visualizers env /\
  (exists m,
     ParseReserveField (reserve_ this) = Some m /\ required_present m).
Proof.
  destruct (shared_data_manager_ env) as [mgr|] eqn:Hm.
  - rewrite (InitInternal_outcome flags ParseReserveField env this p mgr Hm).
    rewrite <- InitStream_true_iff. split.
    + intros [= H]. apply andb_prop in H as [H H3].
      apply andb_prop in H as [H1 H2].
      split; [|split].
      * exists mgr. split; [reflexivity|]. apply stores_ok_spec, H1.
      * apply bool_decide_eq_true in H2. exact H2.
      * exact H3.
    + intros ((mgr' & [= <-] & H1) & H2 & H3).
      apply stores_ok_spec in H1.
      rewrite H1, H3, (bool_decide_eq_true_2 _ H2). reflexivity.
  - unfold InitInternal. rewrite Hm. simpl. split; [discriminate|].
    intros ((mgr & [=] & _) & _).
Qed.

Ltac init_unfold env mgr Hm H :=
  let ok := fresh "ok" in
  let n1 := fresh "n" in
  let Hframe := fresh "Hframe" in
  let Hradar := fresh "Hradar" in
  let Hcamera := fresh "Hcamera" in
  let Hfused := fresh "Hfused" in
  let Hvis := fresh "Hvis" in
  unfold InitInternal in H; rewrite Hm in H;
  match type of H with
  | context [InitStream' ?n] =>
      pose proof (InitStream_frame ParseReserveField n) as Hframe;
      cbv zeta in Hframe;
      destruct (InitStream' n) as [ok n1]
  end;
  destruct (FLAGS_show_radar_objects flags) eqn:Hradar,
    (show_camera flags) eqn:Hcamera,
    (FLAGS_show_fused_objects flags) eqn:Hfused;
  repeat match type of H with
    | context [non_null (dynamic_cast ?c (mgr !! ?n))] =>
        let Hb := fresh "Hb" in
        destruct (non_null (dynamic_cast c (mgr !! n))) eqn:Hb;
        [apply non_null_dynamic_cast_Some in Hb
        |apply non_null_false in Hb]
    end;
  cbn [negb fst snd] in H;
  destruct (bool_decide (FLAGS_frame_visualizer flags ∈ visualizers env))
    eqn:Hvis;
  cbn [negb non_null fst snd] in H;
  try destruct ok; cbn [negb] in H.

Lemma InitInternal_success_form env this p this' p' tr :
  InitInternal' env this p = (InitReturned true, this', p', tr) ->
  (forall st, store_needed flags st = true -> Ptr.of_store st p' = Some st) /\
  (forall st, store_needed flags st = false ->
              Ptr.of_store st p' = Ptr.of_store st p) /\
  Ptr.frame_visualizer_ p' = Some (FLAGS_frame_visualizer flags) /\
  Ptr.camera_to_car_pose_ p' = camera_extrinsics env /\
  pose_type (content_ this') = IMAGE_CONTINUOUS /\
  camera2car_pose (content_ this') = camera_extrinsics env /\
  image_content (content_ this') = image_content (content_ this) /\
  camera_content (content_ this') = camera_content (content_ this) /\
  radar_content (content_ this') = radar_content (content_ this) /\
  fusion_content (content_ this') = fusion_content (content_ this) /\
  frame_timestamp (content_ this') = frame_timestamp (content_ this) /\
  init_ this' = init_ this.
Proof.
  intros H.
  destruct (shared_data_manager_ env) as [mgr|] eqn:Hm;
    [|unfold InitInternal in H; rewrite Hm in H; discriminate].
  init_unfold env mgr Hm H; try discriminate;
    injection H as <- <- <-;
    match goal with
    | Hf : _ /\ _ /\ _ /\ _ |- _ => destruct Hf as (_ & _ & Hi & Hc)
    end; cbn [snd] in Hi, Hc;
    (split; [intros [] Hn|split; [intros [] Hn|]]);
    cbn [store_needed] in *; try congruence;
    try (cbn; congruence);
    cbn; rewrite ?Hc, ?Hi; cbn; repeat split; reflexivity.
Qed.

(** X2.  What a successful [InitInternal] leaves: the pointer of every
    store a toggle needs bound to that store and the other store
    pointers as they were, the visualizer instantiated under the name of
    the flag, the pose type of the snapshot set to [IMAGE_CONTINUOUS] and
    its camera-to-car pose to the calibration's extrinsics, the rest of
    the snapshot and [init_] untouched. *)
Theorem InitInternal_success_state env this p this' p' tr :
  InitInternal' env this p = (InitReturned true, this', p', tr) ->
  (forall st, store_needed flags st = true -> Ptr.of_store st p' = Some st) /\
  (forall st, store_needed flags st = false ->
              Ptr.of_store st p' = Ptr.of_store st p) /\
  Ptr.frame_visualizer_ p' = Some (FLAGS_frame_visualizer flags) /\
  Ptr.camera_to_car_pose_ p' = camera_extrinsics env /\
  pose_type (content_ this') = IMAGE_CONTINUOUS /\
  camera2car_pose (content_ this') = camera_extrinsics env /\
  image_content (content_ this') = image_content (content_ this) /\
  camera_content (content_ this') = camera_content (content_ this) /\
  radar_content (content_ this') = radar_content (content_ this) /\
  fusion_content (content_ this') = fusion_content (content_ this) /\
  frame_timestamp (content_ this') = frame_timestamp (content_ this) /\
  init_ this' = init_ this.
Proof. exact (InitInternal_success_form env this p this' p' tr). Qed.

(** X3.  A store whose toggle is off is left alone by [InitInternal],
    however it ends: its name is never asked of the shared-data manager
    and its pointer keeps the value it had. *)
Theorem InitInternal_toggle_off env this p st :
  store_needed flags st = false ->
  let '(_, _, p', tr) := InitInternal' env this p in
  Ptr.of_store st p' = Ptr.of_store st p /\
  forallb (fun a => negb (is_GetSharedData (store_name st) a)) tr = true.
Proof.
  intros Hn.
  destruct (InitInternal' env this p) as [[[o this'] p'] tr] eqn:H.
  destruct (shared_data_manager_ env) as [mgr|] eqn:Hm;
    [|unfold InitInternal in H; rewrite Hm in H; injection H as <- <- <- <-;
      split; reflexivity].
  init_unfold env mgr Hm H; injection H as <- <- <- <-;
    destruct st; cbn [store_needed] in Hn; try congruence;
    split; reflexivity.
Qed.

Lemma dynamic_cast_Some_inv cls (ptr : option StoreName) :
  dynamic_cast cls ptr = Some cls -> ptr = Some cls.
Proof.
  unfold dynamic_cast. destruct ptr as [c|]; [|discriminate].
  destruct (StoreName_eqb c cls); congruence.
Qed.

(** X4.  A store that a toggle needs and that is not registered under its
    name with its class makes [InitInternal] return [false] before it
    reaches the visualizer and the stream identifiers: the object is
    exactly as it was, no visualizer is asked for and the visualizer
    pointer and the camera-to-car pose are untouched. *)
Theorem InitInternal_missing_store env this p mgr st :
  shared_data_manager_ env = Some mgr ->
  store_needed flags st = true ->
  mgr !! store_name st <> Some st ->
  let '(o, this', p', tr) := InitInternal' env this p in
  o = InitReturned false /\ this' = this /\
  Ptr.frame_visualizer_ p' = Ptr.frame_visualizer_ p /\
  Ptr.camera_to_car_pose_ p' = Ptr.camera_to_car_pose_ p /\
  forallb (fun a => negb (is_GetInstanceByName a)) tr = true.
Proof.
  intros Hm Hn Hmiss.
  destruct (InitInternal' env this p) as [[[o this'] p'] tr] eqn:H.
  init_unfold env mgr Hm H; injection H as <- <- <- <-;
    try (repeat split; reflexivity);
    exfalso; destruct st; cbn [store_needed store_name] in *;
    try congruence;
    match goal with
    | Hb : dynamic_cast ?c (mgr !! ?n) = Some ?c |- _ =>
        apply dynamic_cast_Some_inv in Hb; congruence
    end.
Qed.

Lemma GetFrameData_reads_needed this sd ev device_id data_key ts content st :
  store_needed flags st = false ->
  lookups st
    (snd (GetFrameData flags this sd ev device_id data_key ts content)) = O.
Proof.
  intros Hn. destruct st; cbn [store_needed] in Hn.
  - apply GetFrameData_radar_filter. left. exact Hn.
  - apply GetFrameData_camera_off. exact Hn.
  - apply GetFrameData_camera_off. exact Hn.
  - apply GetFrameData_fusion_off. exact Hn.
  - apply GetFrameData_camera_off. exact Hn.
Qed.

(** X5.  After a successful [InitInternal] every store pointer that the
    dispatch follows is bound: a store that [GetFrameData] looks up, for
    whatever event, and so a store looked up in any run of cycles, is one
    whose pointer [InitInternal] has set to that store.  The toggles that
    guard the lookups are those that guard the binding. *)
Theorem InitInternal_binds_what_is_read env this p this' p' tr :
  InitInternal' env this p = (InitReturned true, this', p', tr) ->
  (forall sd ev device_id data_key ts content st,
     lookups st
       (snd (GetFrameData flags this' sd ev device_id data_key ts content))
     <> O ->
     Ptr.of_store st p' = Some st) /\
  (forall cycles st,
     lookups st (snd (run flags ProduceSharedDataKey this' cycles)) <> O ->
     Ptr.of_store st p' = Some st).
Proof.
  intros H.
  destruct (InitInternal_success_form env this p this' p' tr H) as [Hb _].
  split.
  - intros sd ev device_id data_key ts content st Hl.
    destruct (store_needed flags st) eqn:Hn; [exact (Hb st Hn)|].
    exfalso. apply Hl. apply GetFrameData_reads_needed. exact Hn.
  - intros cycles st Hl.
    destruct (store_needed flags st) eqn:Hn; [exact (Hb st Hn)|].
    exfalso. apply Hl. apply run_no_lookups. intros.
    apply GetFrameData_reads_needed. exact Hn.
Qed.

End InitInternalProperties.

(** ** Subscription *)

Lemma drain_result fuel (em : EventManager) id event events :
  (queue_length em id < fuel)%nat ->
  fst (fst (drain fuel em id event events)) = events ++ default [] (em !! id)
  /\
  snd (drain fuel em id event events)
  = match em !! id with
    | Some _ => <[id := []]> em
    | None => em
    end.
Proof.
  revert em event events.
  induction fuel as [|fuel IH]; intros em event events Hlt; [lia|].
  simpl. unfold Subscribe. unfold queue_length in Hlt.
  destruct (em !! id) as [[|e q]|] eqn:Hq; simpl in *.
  - rewrite app_nil_r. split; [reflexivity|].
    symmetry. apply insert_id. exact Hq.
  - destruct (IH (<[id := q]> em) e (events ++ [e])) as [He Hm].
    { unfold queue_length. rewrite lookup_insert_eq. lia. }
    rewrite He, Hm, lookup_insert_eq, insert_insert_eq. simpl.
    rewrite <- app_assoc. split; reflexivity.
  - rewrite app_nil_r. split; reflexivity.
Qed.

Lemma SubscribeEvents_other_result this event_meta events
    (em : EventManager) :
  meta_event_id event_meta <> vis_driven_event_id_ this ->
  SubscribeEvents this event_meta events em =
    SubscribeReturns true
      (events ++ default [] (em !! meta_event_id event_meta))
      (match em !! meta_event_id event_meta with
       | Some _ => <[meta_event_id event_meta := []]> em
       | None => em
       end).
Proof.
  intros Hne. unfold SubscribeEvents.
  apply Z.eqb_neq in Hne. rewrite Hne.
  destruct (drain_result (S (queue_length em (meta_event_id event_meta))) em
              (meta_event_id event_meta) default_Event events)
    as [He Hm]; [lia|].
  destruct (drain _ em _ default_Event events) as [[evs ev] em'].
  simpl in He, Hm. rewrite He, Hm. reflexivity.
Qed.

(** X8.  For a kind other than the driving one [SubscribeEvents] returns
    [true] with every event queued under the identifier appended to
    [events] in queue order, and leaves that queue empty and every other
    queue as it was; an identifier that is not registered yields no
    event and no failure. *)
Theorem SubscribeEvents_drains this event_meta events (em : EventManager) :
  meta_event_id event_meta <> vis_driven_event_id_ this ->
  SubscribeEvents this event_meta events em =
    SubscribeReturns true
      (events ++ default [] (em !! meta_event_id event_meta))
      (match em !! meta_event_id event_meta with
       | Some _ => <[meta_event_id event_meta := []]> em
       | None => em
       end).
Proof. exact (SubscribeEvents_other_result this event_meta events em). Qed.

(** What a subscribe of either kind does to the queues. *)
Lemma SubscribeEvents_queues this event_meta events (em : EventManager) ok
    events' em' :
  SubscribeEvents this event_meta events em
    = SubscribeReturns ok events' em' ->
  (forall id, id <> meta_event_id event_meta -> em' !! id = em !! id) /\
  (forall id, default [] (em !! id) = [] -> default [] (em' !! id) = []) /\
  (is_driving this event_meta = false ->
   default [] (em' !! meta_event_id event_meta) = []).
Proof.
  unfold is_driving.
  destruct (Z.eq_dec (meta_event_id event_meta) (vis_driven_event_id_ this))
    as [Heq|Hne].
  - unfold SubscribeEvents. pose proof Heq as Hb. apply Z.eqb_eq in Hb.
    rewrite Hb. unfold Subscribe.
    destruct (em !! meta_event_id event_meta) as [[|e q]|] eqn:Hq;
      intros [= <- <- <-]; (split; [|split]);
      try (intros Hd; rewrite Hb in Hd; discriminate); try discriminate;
      try (intros; auto; fail).
    + intros id Hid. rewrite lookup_insert_ne by congruence. reflexivity.
    + intros id Hid.
      destruct (Z.eq_dec id (meta_event_id event_meta)) as [->|Hd].
      * unfold EventID in *. rewrite Hq in Hid. discriminate.
      * rewrite lookup_insert_ne by congruence. exact Hid.
  - rewrite (SubscribeEvents_other_result this event_meta events em Hne).
    intros [= <- <- <-]. split; [|split].
    + intros id Hid. destruct (em !! meta_event_id event_meta);
        [rewrite lookup_insert_ne by congruence|]; reflexivity.
    + intros id Hid. destruct (em !! meta_event_id event_meta) eqn:Hq;
        [|exact Hid].
      destruct (Z.eq_dec id (meta_event_id event_meta)) as [->|Hd].
      * rewrite lookup_insert_eq. reflexivity.
      * rewrite lookup_insert_ne by congruence. exact Hid.
    + intros _. destruct (em !! meta_event_id event_meta) eqn:Hq.
      * rewrite lookup_insert_eq. reflexivity.
      * rewrite Hq. reflexivity.
Qed.

(** ** The dispatch cycle as a whole *)

Section CycleProperties.

Variable flags : Flags.
Variable ProduceSharedDataKey : float -> string -> option string.

Local Abbreviation ProcEvents_event' :=
  (ProcEvents_event flags ProduceSharedDataKey).
Local Abbreviation ProcEvents_events' :=
  (ProcEvents_events flags ProduceSharedDataKey).
Local Abbreviation ProcEvents_metas' :=
  (ProcEvents_metas flags ProduceSharedDataKey).
Local Abbreviation ProcEvents' := (ProcEvents flags ProduceSharedDataKey).
Local Abbreviation run' := (run flags ProduceSharedDataKey).
Local Abbreviation underivable' := (underivable ProduceSharedDataKey).

Lemma ProcEvents_metas_config this sd metas em :
  same_config this
    (snd (fst (fst (ProcEvents_metas' this sd metas em)))).
Proof.
  revert this em. induction metas as [|m metas IH]; intros this em; simpl.
  - apply same_config_refl.
  - destruct (SubscribeEvents this m [] em) as [|[] events em1];
      try apply same_config_refl.
    pose proof (ProcEvents_events_config flags ProduceSharedDataKey this sd m
                  events) as He.
    destruct (ProcEvents_events' this sd m events) as [[[st|x] this1] tr1];
      simpl in *; [exact He|].
    specialize (IH this1 em1).
    destruct (ProcEvents_metas' this1 sd metas em1)
      as [[[r this2] em2] tr2].
    simpl in *. eapply same_config_trans; eassumption.
Qed.

Lemma run_config this cycles : same_config this (fst (run' this cycles)).
Proof.
  revert this. induction cycles as [|[sd em] cycles IH]; intros this; simpl.
  - apply same_config_refl.
  - pose proof (ProcEvents_metas_config this sd (sub_meta_events_ this) em)
      as Hc.
    unfold ProcEvents.
    destruct (ProcEvents_metas' this sd (sub_meta_events_ this) em)
      as [[[[|st] this1] em1] tr1]; simpl in *; [exact Hc|].
    specialize (IH this1).
    destruct (run' this1 cycles) as [this2 tr2].
    simpl in *. eapply same_config_trans; eassumption.
Qed.

(** *** Where the failure status comes from *)

Lemma ProcEvents_events_fails_iff this sd event_meta events :
  (exists st, fst (fst (ProcEvents_events' this sd event_meta events))
              = inl st)
  <-> Exists underivable' events.
Proof.
  revert this. induction events as [|ev events IH]; intros this; simpl.
  - split; [intros [st [=]] | intros H; inversion H].
  - rewrite Exists_cons.
    destruct (ProduceSharedDataKey (timestamp ev) (reserve ev)) as [k|] eqn:Hk.
    + rewrite (ProcEvents_event_key_ok flags ProduceSharedDataKey _ _ _ _ _ Hk).
      cbv zeta.
      assert (Hn : ~ underivable' ev) by (unfold underivable; congruence).
      destruct (_ =? _);
        match goal with
        | |- context [ProcEvents_events' ?t sd event_meta events] =>
            specialize (IH t);
            destruct (ProcEvents_events' t sd event_meta events)
              as [[r t1] tr1]
        end; simpl in *; rewrite IH; tauto.
    + rewrite (ProcEvents_event_key_failure flags ProduceSharedDataKey
                 _ _ _ _ Hk).
      simpl. split; [intros _; left; exact Hk | intros _; eexists; reflexivity].
Qed.

Lemma ProcEvents_metas_fails_iff this0 this sd metas em :
  same_config this0 this ->
  fst (fst (fst (ProcEvents_metas' this sd metas em)))
    = Returns Failed_to_proc_events
  <-> Exists (fun p => underivable' (snd p)) (worklist this0 metas em).
Proof.
  revert this em. induction metas as [|m metas IH]; intros this em Hcfg; simpl.
  - split; [discriminate | intros H; inversion H].
  - rewrite (same_config_SubscribeEvents _ _ Hcfg).
    destruct (SubscribeEvents this0 m [] em) as [|ok events em1] eqn:Hs.
    + simpl. split; [discriminate | intros H; inversion H].
    + rewrite (SubscribeEvents_ok _ _ _ _ _ _ _ Hs).
      rewrite Exists_app, Exists_fmap. simpl.
      pose proof (ProcEvents_events_fails_iff this sd m events) as He.
      pose proof (ProcEvents_events_config flags ProduceSharedDataKey this sd
                    m events) as Hc1.
      destruct (ProcEvents_events' this sd m events) as [[[st|x] this1] tr1]
        eqn:Hev; simpl in *.
      * rewrite (ProcEvents_events_failure flags ProduceSharedDataKey
                   _ _ _ _ _ _ _ Hev).
        split; [intros _; left; apply He; eexists; reflexivity
               | reflexivity].
      * specialize (IH this1 em1 (same_config_trans _ _ _ Hcfg Hc1)).
        destruct (ProcEvents_metas' this1 sd metas em1)
          as [[[r this2] em2] tr2].
        simpl in *. rewrite IH. split; [tauto|].
        intros [H|H]; [|exact H].
        apply He in H. destruct H as [st [=]].
Qed.

Lemma ProcEvents_metas_status this sd metas em st :
  fst (fst (fst (ProcEvents_metas' this sd metas em))) = Returns st ->
  st = Status_OK \/ st = Failed_to_proc_events.
Proof.
  revert this em. induction metas as [|m metas IH]; intros this em; simpl.
  - intros [= <-]. left. reflexivity.
  - destruct (SubscribeEvents this m [] em) as [|[] events em1];
      try discriminate; [|intros [= <-]; right; reflexivity].
    destruct (ProcEvents_events' this sd m events) as [[[st1|x] this1] tr1]
      eqn:Hev; simpl.
    + intros [= <-]. right.
      exact (ProcEvents_events_failure flags ProduceSharedDataKey
               _ _ _ _ _ _ _ Hev).
    + specialize (IH this1 em1).
      destruct (ProcEvents_metas' this1 sd metas em1)
        as [[[r this2] em2] tr2].
      exact IH.
Qed.

(** X9.  [ProcEvents] returns the failure status exactly when the key of
    one of the events the cycle gets from the event manager cannot be
    derived; nothing else (a failed subscribe, a missing payload) makes it
    fail, and the only other status it returns is [OK]. *)
Theorem ProcEvents_fails_iff_underivable this sd em :
  (fst (fst (fst (ProcEvents' this sd em))) = Returns Failed_to_proc_events
   <-> Exists (fun p => underivable' (snd p))
         (worklist this (sub_meta_events_ this) em)) /\
  (forall st, fst (fst (fst (ProcEvents' this sd em))) = Returns st ->
              st = Status_OK \/ st = Failed_to_proc_events).
Proof.
  split.
  - apply ProcEvents_metas_fails_iff, same_config_refl.
  - intros st. apply ProcEvents_metas_status.
Qed.

(** *** Where the cycle can wait *)

Lemma ProcEvents_metas_blocks this0 this sd metas em :
  same_config this0 this ->
  fst (fst (fst (ProcEvents_metas' this sd metas em))) = Blocks ->
  exists event_meta, In event_meta metas /\ is_driving this0 event_meta = true.
Proof.
  revert this em. induction metas as [|m metas IH]; intros this em Hcfg; simpl.
  - discriminate.
  - destruct (is_driving this0 m) eqn:Hd; [intros _; exists m; auto|].
    rewrite (same_config_SubscribeEvents _ _ Hcfg).
    assert (Hne : meta_event_id m <> vis_driven_event_id_ this0)
      by (apply Z.eqb_neq; exact Hd).
    rewrite (SubscribeEvents_other_result this0 m [] em Hne).
    pose proof (ProcEvents_events_config flags ProduceSharedDataKey this sd
                  m (default [] (em !! meta_event_id m))) as Hc1.
    simpl.
    destruct (ProcEvents_events' this sd m _) as [[[st|x] this1] tr1];
      simpl in *; [discriminate|].
    match goal with
    | |- context [ProcEvents_metas' this1 sd metas ?e] =>
        specialize (IH this1 e (same_config_trans _ _ _ Hcfg Hc1));
        destruct (ProcEvents_metas' this1 sd metas e) as [[[r this2] em2] tr2]
    end.
    simpl in *. intros Hb. destruct (IH Hb) as (m' & Hin & Hm').
    exists m'. auto.
Qed.

(** X10.  A cycle can wait only in the blocking subscribe of a kind
    carrying the driving identifier: when no subscribed kind carries it,
    [ProcEvents] returns, whatever the event manager holds. *)
Theorem ProcEvents_returns_without_driving this sd em :
  (forall event_meta, In event_meta (sub_meta_events_ this) ->
                      is_driving this event_meta = false) ->
  exists st, fst (fst (fst (ProcEvents' this sd em))) = Returns st.
Proof.
  intros Hnone.
  destruct (fst (fst (fst (ProcEvents' this sd em)))) as [|st] eqn:Ho;
    [|eexists; reflexivity].
  destruct (ProcEvents_metas_blocks this this sd (sub_meta_events_ this) em
              (same_config_refl this) Ho) as (m & Hin & Hd).
  rewrite (Hnone m Hin) in Hd. discriminate.
Qed.

(** *** How often a cycle renders *)

Lemma ProcEvents_events_render_count this sd event_meta events :
  let '(r, _, tr) := ProcEvents_events' this sd event_meta events in
  (length (renders tr)
   <= if is_driving this event_meta then length events else 0)%nat /\
  (forall x, r = inr x ->
     length (renders tr)
     = if is_driving this event_meta then length events else O).
Proof.
  revert this. induction events as [|ev events IH]; intros this; simpl.
  - destruct (is_driving this event_meta); split; auto.
  - destruct (ProduceSharedDataKey (timestamp ev) (reserve ev)) as [k|] eqn:Hk.
    + rewrite (ProcEvents_event_key_ok flags ProduceSharedDataKey _ _ _ _ _ Hk).
      cbv zeta. unfold is_driving in *.
      pose proof (GetFrameData_only_gets flags this sd ev (reserve ev) k
                    (timestamp ev) (content_ this)) as Hg.
      destruct (meta_event_id event_meta =? vis_driven_event_id_ this) eqn:Hd;
        match goal with
        | |- context [ProcEvents_events' ?t sd event_meta events] =>
            specialize (IH t); cbn [vis_driven_event_id_ with_init
                                     with_content] in IH;
            rewrite Hd in IH;
            destruct (ProcEvents_events' t sd event_meta events)
              as [[r t1] tr1]
        end;
        destruct IH as [Hle Heq];
        rewrite !renders_app, !length_app, (gets_no_render _ Hg);
        [destruct (init_ this)|]; simpl;
        (split; [lia | intros x Hx; rewrite (Heq x Hx); reflexivity]).
    + rewrite (ProcEvents_event_key_failure flags ProduceSharedDataKey
                 _ _ _ _ Hk).
      simpl. split; [destruct (is_driving this event_meta); lia|discriminate].
Qed.

Lemma ProcEvents_metas_render_count this0 this sd metas em :
  same_config this0 this ->
  let '(o, _, _, tr) := ProcEvents_metas' this sd metas em in
  (length (renders tr) <= driving_metas this0 metas)%nat /\
  (o = Returns Status_OK ->
   length (renders tr) = driving_metas this0 metas).
Proof.
  unfold driving_metas.
  revert this em. induction metas as [|m metas IH]; intros this em Hcfg; simpl.
  - split; auto.
  - assert (Hdrv : is_driving this m = is_driving this0 m)
      by (unfold is_driving; rewrite (same_config_driven _ _ Hcfg);
          reflexivity).
    assert (Hone : forall events em1,
               SubscribeEvents this m [] em = SubscribeReturns true events em1
               -> is_driving this0 m = true -> length events = 1%nat).
    { intros events em1 Hs Hd. rewrite <- Hdrv in Hd. unfold is_driving in Hd.
      unfold SubscribeEvents in Hs. rewrite Hd in Hs.
      destruct (Subscribe em (meta_event_id m) default_Event false);
        [discriminate|]. injection Hs as <- _. reflexivity. }
    destruct (SubscribeEvents this m [] em) as [|[] events em1] eqn:Hs.
    + simpl. split; [lia|discriminate].
    + pose proof (ProcEvents_events_render_count this sd m events) as He.
      pose proof (ProcEvents_events_config flags ProduceSharedDataKey this sd
                    m events) as Hc1.
      specialize (Hone events em1 eq_refl). rewrite Hdrv in He.
      destruct (ProcEvents_events' this sd m events) as [[[st|x] this1] tr1]
        eqn:Hev; simpl in Hc1; destruct He as [Hle Heq].
      * split.
        -- destruct (is_driving this0 m); simpl; [rewrite Hone in Hle|]; auto;
             lia.
        -- rewrite (ProcEvents_events_failure flags ProduceSharedDataKey
                      _ _ _ _ _ _ _ Hev). discriminate.
      * specialize (IH this1 em1 (same_config_trans _ _ _ Hcfg Hc1)).
        destruct (ProcEvents_metas' this1 sd metas em1)
          as [[[r this2] em2] tr2].
        destruct IH as [Hle2 Heq2]. specialize (Heq x eq_refl).
        rewrite renders_app, length_app, Heq.
        destruct (is_driving this0 m); simpl; [rewrite Hone by reflexivity|];
          (split; [lia | intros Hr; rewrite (Heq2 Hr); reflexivity]).
    + simpl. split; [lia|discriminate].
Qed.

(** X11.  A cycle renders at most once for every subscribed kind that
    carries the driving identifier, and exactly that often when it
    returns [OK]: the blocking subscribe hands over one event at a time,
    however many are queued. *)
Theorem ProcEvents_render_count this sd em :
  let '(o, _, _, tr) := ProcEvents' this sd em in
  (length (renders tr) <= driving_metas this (sub_meta_events_ this))%nat /\
  (o = Returns Status_OK ->
   length (renders tr) = driving_metas this (sub_meta_events_ this)).
Proof.
  exact (ProcEvents_metas_render_count this this sd (sub_meta_events_ this) em
           (same_config_refl this)).
Qed.

(** *** What a cycle does to the queues *)

Lemma ProcEvents_metas_queues this0 this sd metas (em : EventManager) :
  same_config this0 this ->
  let '(o, _, em', _) := ProcEvents_metas' this sd metas em in
  (forall id : Z,
      (forall m, In m metas -> meta_event_id m <> id) ->
      em' !! id = em !! id) /\
  (forall id : Z, default [] (em !! id) = [] -> default [] (em' !! id) = []) /\
  (o = Returns Status_OK ->
   forall m, In m metas -> is_driving this0 m = false ->
             default [] (em' !! meta_event_id m) = []).
Proof.
  revert this em. induction metas as [|m metas IH]; intros this em Hcfg; simpl.
  - repeat split; auto. intros _ m [].
  - rewrite (same_config_SubscribeEvents _ _ Hcfg).
    destruct (SubscribeEvents this0 m [] em) as [|ok events em1] eqn:Hs.
    + repeat split; auto. discriminate.
    + rewrite (SubscribeEvents_ok _ _ _ _ _ _ _ Hs).
      destruct (SubscribeEvents_queues _ _ _ _ _ _ _ Hs) as (Q1 & Q2 & Q3).
      pose proof (ProcEvents_events_config flags ProduceSharedDataKey this sd
                    m events) as Hc1.
      destruct (ProcEvents_events' this sd m events) as [[[st|x] this1] tr1]
        eqn:Hev; simpl in Hc1.
      * split; [|split].
        -- intros id Hid. apply Q1. intros ->. apply (Hid m); auto.
        -- exact Q2.
        -- rewrite (ProcEvents_events_failure flags ProduceSharedDataKey
                      _ _ _ _ _ _ _ Hev). discriminate.
      * specialize (IH this1 em1 (same_config_trans _ _ _ Hcfg Hc1)).
        destruct (ProcEvents_metas' this1 sd metas em1)
          as [[[r this2] em2] tr2].
        destruct IH as (I1 & I2 & I3). split; [|split].
        -- intros id Hid. rewrite I1 by (intros m' Hm'; apply Hid; auto).
           apply Q1. intros ->. apply (Hid m); auto.
        -- intros id Hid. apply I2, Q2, Hid.
        -- intros Hr m' [<-|Hin] Hd.
           ++ apply I2, Q3. exact Hd.
           ++ apply I3; assumption.
Qed.

(** X12.  A cycle consumes what it reads and touches no other queue: the
    queue of an identifier that no subscribed kind carries is as it was,
    a queue that was empty stays empty, and after a cycle that returned
    [OK] the queue of every subscribed kind other than the driving one is
    empty. *)
Theorem ProcEvents_consumes_queues this sd (em : EventManager) :
  let '(o, _, em', _) := ProcEvents' this sd em in
  (forall id : Z,
      (forall m, In m (sub_meta_events_ this) -> meta_event_id m <> id) ->
      em' !! id = em !! id) /\
  (forall id : Z, default [] (em !! id) = [] -> default [] (em' !! id) = []) /\
  (o = Returns Status_OK ->
   forall m, In m (sub_meta_events_ this) -> is_driving this m = false ->
             default [] (em' !! meta_event_id m) = []).
Proof.
  exact (ProcEvents_metas_queues this this sd (sub_meta_events_ this) em
           (same_config_refl this)).
Qed.

End CycleProperties.

(** ** Correlation of one event *)

Section CorrelationProperties.

Variable flags : Flags.

Lemma GetFrameData_by_branch this sd event device_id data_key ts content :
  GetFrameData flags this sd event device_id data_key ts content
  = correlated flags this sd event device_id data_key ts content.
Proof.
  unfold correlated, image_and_detections, timestamp_updated, GetFrameData,
    GetFrameData_chain, branch_of, payload, Get.
  repeat case_match; simplify_eq; reflexivity.
Qed.

Ltac by_branch :=
  rewrite ?GetFrameData_by_branch in *;
  unfold correlated, image_and_detections, timestamp_updated in *.

Ltac prep :=
  repeat match goal with
    | H : (_ && _) = true |- _ => apply andb_prop in H as [? ?]
    | H : String.eqb _ _ = true |- _ => apply String.eqb_eq in H
    | H : (_ =? _) = true |- _ => apply Z.eqb_eq in H
    end.

Ltac fin :=
  repeat match goal with
    | |- _ /\ _ => split
    | |- exists _, _ => eexists
    | |- _ = _ => first [reflexivity | assumption | congruence]
    | |- _ \/ _ => first [left; solve [fin] | right; solve [fin]]
    end.

(** X13.  An event is correlated with the data of its own kind only:
    every lookup [GetFrameData] makes is on a store of the branch the
    event takes, under the key it was given, and there are at most two
    of them; an event of the motion kind or of no configured kind makes
    none. *)
Theorem GetFrameData_lookups_of_branch this sd event device_id data_key ts
    content :
  let tr := snd (GetFrameData flags this sd event device_id data_key ts
                   content) in
  (forall st key, In (SharedGet st key) tr ->
     branch_reads (branch_of this event) st = true /\ key = data_key) /\
  (length tr <= 2)%nat /\
  (branch_of this event = MotionBranch \/ branch_of this event = NoBranch ->
   tr = []).
Proof.
  cbv zeta. by_branch. split; [|split].
  - intros st key. destruct (branch_of this event);
      repeat case_match; simpl; intros Hin;
      repeat (destruct Hin as [Hin|Hin]; [injection Hin as <- <-|]);
      try contradiction; split; reflexivity.
  - destruct (branch_of this event); repeat case_match; simpl; lia.
  - intros [-> | ->]; reflexivity.
Qed.

(** X14.  Which event can change which field of the snapshot.  The radar
    content changes only for an event on the radar branch from
    "radar_front" with the radar toggle on and a radar payload, the fused
    obstacles only on the fusion branch with the fusion toggle on and a
    fusion payload, the image only on the camera or cipv branch with a
    camera toggle on and an image payload, the camera detections only
    there with the camera-parsing toggle off and the detection list of
    that branch, the frame timestamp only for an event carrying the
    driving identifier; and what is written carries the timestamp passed
    in and the payload found. *)
Theorem GetFrameData_field_changes this sd event device_id data_key ts
    content :
  let c := fst (GetFrameData flags this sd event device_id data_key ts
                  content) in
  (radar_content c <> radar_content content ->
   branch_of this event = RadarBranch /\ device_id = "radar_front" /\
   FLAGS_show_radar_objects flags = true /\
   exists objs, payload (radar_object_data_ sd) data_key = Some objs /\
                radar_content c = Some (ts, objects objs)) /\
  (fusion_content c <> fusion_content content ->
   branch_of this event = FusionBranch /\
   FLAGS_show_fused_objects flags = true /\
   exists item, payload (fusion_data_ sd) data_key = Some item /\
                fusion_content c = Some (ts, obstacles item)) /\
  (image_content c <> image_content content ->
   (branch_of this event = CameraBranch \/ branch_of this event = CipvBranch)
   /\ show_camera flags = true /\
   exists item, payload (camera_shared_data_ sd) data_key = Some item /\
                image_content c = Some (ts, image_src_mat item)) /\
  (camera_content c <> camera_content content ->
   show_camera flags = true /\ FLAGS_show_camera_parsing flags = false /\
   exists objs,
     camera_content c = Some (ts, sensor2world_pose objs, objects objs) /\
     (branch_of this event = CameraBranch /\
      payload (camera_object_data_ sd) data_key = Some objs \/
      branch_of this event = CipvBranch /\
      payload (cipv_object_data_ sd) data_key = Some objs)) /\
  (frame_timestamp c <> frame_timestamp content ->
   event_id event = vis_driven_event_id_ this /\ frame_timestamp c = ts).
Proof.
  cbv zeta. by_branch.
  split; [|split; [|split; [|split]]]; intros Hne;
    destruct (branch_of this event);
    repeat case_match; simpl in *; try congruence; prep; fin.
Qed.

(** X15.  With its toggle on and its payload stored under the key, an
    event's data lands in the snapshot under the timestamp passed in:
    the radar objects of a radar event from "radar_front", the obstacles
    of a fusion event, the image of a camera or cipv event, and, unless
    the camera-parsing toggle is on, the pose and objects of its
    detection list. *)
Theorem GetFrameData_correlates this sd event device_id data_key ts content :
  let c := fst (GetFrameData flags this sd event device_id data_key ts
                  content) in
  (branch_of this event = RadarBranch -> device_id = "radar_front" ->
   FLAGS_show_radar_objects flags = true ->
   forall objs, payload (radar_object_data_ sd) data_key = Some objs ->
   radar_content c = Some (ts, objects objs)) /\
  (branch_of this event = FusionBranch ->
   FLAGS_show_fused_objects flags = true ->
   forall item, payload (fusion_data_ sd) data_key = Some item ->
   fusion_content c = Some (ts, obstacles item)) /\
  (branch_of this event = CameraBranch -> show_camera flags = true ->
   forall item objs,
   payload (camera_shared_data_ sd) data_key = Some item ->
   payload (camera_object_data_ sd) data_key = Some objs ->
   image_content c = Some (ts, image_src_mat item) /\
   (FLAGS_show_camera_parsing flags = false ->
    camera_content c = Some (ts, sensor2world_pose objs, objects objs))) /\
  (branch_of this event = CipvBranch -> show_camera flags = true ->
   forall item objs,
   payload (camera_shared_data_ sd) data_key = Some item ->
   payload (cipv_object_data_ sd) data_key = Some objs ->
   image_content c = Some (ts, image_src_mat item) /\
   (FLAGS_show_camera_parsing flags = false ->
    camera_content c = Some (ts, sensor2world_pose objs, objects objs))).
Proof.
  cbv zeta. by_branch. split; [|split; [|split]].
  - intros -> -> -> objs ->. simpl. destruct (_ =? _); reflexivity.
  - intros -> -> item ->. destruct (_ =? _); reflexivity.
  - intros -> -> item objs -> ->. simpl.
    split; [|intros ->]; destruct (_ =? _); try reflexivity;
      destruct (FLAGS_show_camera_parsing flags); reflexivity.
  - intros -> -> item objs -> ->. simpl.
    split; [|intros ->]; destruct (_ =? _); try reflexivity;
      destruct (FLAGS_show_camera_parsing flags); reflexivity.
Qed.

(** With the camera-parsing toggle on no event writes the camera
    detections. *)
Lemma GetFrameData_camera_parsing this sd event device_id data_key ts
    content :
  FLAGS_show_camera_parsing flags = true ->
  camera_content
    (fst (GetFrameData flags this sd event device_id data_key ts content))
  = camera_content content.
Proof.
  intros Hf. by_branch. rewrite Hf.
  destruct (branch_of this event); repeat case_match; reflexivity.
Qed.

(** What an event of the motion branch or of no branch does. *)
Lemma GetFrameData_inert this sd event device_id data_key ts content :
  branch_of this event = MotionBranch \/ branch_of this event = NoBranch ->
  GetFrameData flags this sd event device_id data_key ts content
  = (timestamp_updated this event ts content, []).
Proof. by_branch. intros [-> | ->]; reflexivity. Qed.

End CorrelationProperties.

(** ** Invariants of the dispatch cycles *)

Section RunProperties.

Variable flags : Flags.
Variable ProduceSharedDataKey : float -> string -> option string.

Local Abbreviation ProcEvents_event' :=
  (ProcEvents_event flags ProduceSharedDataKey).
Local Abbreviation ProcEvents_events' :=
  (ProcEvents_events flags ProduceSharedDataKey).
Local Abbreviation ProcEvents_metas' :=
  (ProcEvents_metas flags ProduceSharedDataKey).
Local Abbreviation run' := (run flags ProduceSharedDataKey).

Section ContentInvariant.

Variable P : FrameContent -> Prop.
Hypothesis P_GetFrameData :
  forall this sd ev device_id data_key ts content,
    P content ->
    P (fst (GetFrameData flags this sd ev device_id data_key ts content)).

Lemma ProcEvents_events_invariant this sd event_meta events :
  P (content_ this) ->
  P (content_ (snd (fst (ProcEvents_events' this sd event_meta events)))).
Proof.
  revert this. induction events as [|ev events IH]; intros this HP; simpl;
    [exact HP|].
  destruct (ProduceSharedDataKey (timestamp ev) (reserve ev)) as [k|] eqn:Hk.
  - rewrite (ProcEvents_event_key_ok flags ProduceSharedDataKey _ _ _ _ _ Hk).
    cbv zeta.
    pose proof (P_GetFrameData this sd ev (reserve ev) k (timestamp ev)
                  (content_ this) HP) as HP1.
    destruct (_ =? _);
      match goal with
      | |- context [ProcEvents_events' ?t sd event_meta events] =>
          specialize (IH t HP1);
          destruct (ProcEvents_events' t sd event_meta events)
            as [[r t1] tr1]
      end; exact IH.
  - rewrite (ProcEvents_event_key_failure flags ProduceSharedDataKey
               _ _ _ _ Hk).
    exact HP.
Qed.

Lemma ProcEvents_metas_invariant this sd metas em :
  P (content_ this) ->
  P (content_ (snd (fst (fst (ProcEvents_metas' this sd metas em))))).
Proof.
  revert this em. induction metas as [|m metas IH]; intros this em HP; simpl;
    [exact HP|].
  destruct (SubscribeEvents this m [] em) as [|[] events em1]; try exact HP.
  pose proof (ProcEvents_events_invariant this sd m events HP) as He.
  destruct (ProcEvents_events' this sd m events) as [[[st|x] this1] tr1];
    simpl in *; [exact He|].
  specialize (IH this1 em1 He).
  destruct (ProcEvents_metas' this1 sd metas em1) as [[[r this2] em2] tr2].
  exact IH.
Qed.

Lemma run_invariant this cycles :
  P (content_ this) -> P (content_ (fst (run' this cycles))).
Proof.
  revert this. induction cycles as [|[sd em] cycles IH]; intros this HP; simpl;
    [exact HP|].
  pose proof (ProcEvents_metas_invariant this sd (sub_meta_events_ this) em HP)
    as Hc.
  unfold ProcEvents.
  destruct (ProcEvents_metas flags ProduceSharedDataKey this sd
              (sub_meta_events_ this) em)
    as [[[[|st] this1] em1] tr1]; simpl in *; [exact Hc|].
  specialize (IH this1 Hc).
  destruct (run' this1 cycles) as [this2 tr2]. exact IH.
Qed.

End ContentInvariant.

(** X16.  No number of cycles changes the configuration of the object or
    the pose part of the snapshot: the reserve string, the subscribed
    kinds and the six stream identifiers are those [InitStream] left, and
    the camera-to-car pose and the pose type those [InitInternal] set. *)
Theorem run_keeps_configuration this cycles :
  let this' := fst (run flags ProduceSharedDataKey this cycles) in
  reserve_ this' = reserve_ this /\
  sub_meta_events_ this' = sub_meta_events_ this /\
  vis_driven_event_id_ this' = vis_driven_event_id_ this /\
  radar_event_id_ this' = radar_event_id_ this /\
  camera_event_id_ this' = camera_event_id_ this /\
  cipv_event_id_ this' = cipv_event_id_ this /\
  fusion_event_id_ this' = fusion_event_id_ this /\
  motion_event_id_ this' = motion_event_id_ this /\
  camera2car_pose (content_ this') = camera2car_pose (content_ this) /\
  pose_type (content_ this') = pose_type (content_ this).
Proof.
  cbv zeta.
  pose proof (run_config flags ProduceSharedDataKey this cycles) as Hc.
  pose proof (run_invariant
                (fun c => camera2car_pose c = camera2car_pose (content_ this)
                          /\ pose_type c = pose_type (content_ this))) as Hi.
  cbv beta in Hi.
  destruct (Hi (fun this0 sd ev d k ts c Hc0 =>
                  let H := GetFrameData_pose flags this0 sd ev d k ts c in
                  conj (eq_trans (proj1 H) (proj1 Hc0))
                       (eq_trans (proj2 H) (proj2 Hc0)))
               this cycles (conj eq_refl eq_refl)) as [Hp Ht].
  rewrite Hc. cbn. repeat split; assumption.
Qed.

(** X17.  With the camera-parsing toggle on, the camera detections of the
    snapshot are never written, over any number of cycles: the branch
    that would write them is the one the toggle switches off. *)
Theorem run_camera_parsing_keeps_detections this cycles :
  FLAGS_show_camera_parsing flags = true ->
  camera_content
    (content_ (fst (run flags ProduceSharedDataKey this cycles)))
  = camera_content (content_ this).
Proof.
  intros Hf.
  apply (run_invariant
           (fun c => camera_content c = camera_content (content_ this)));
    [|reflexivity].
  intros this0 sd ev d k ts c Hc.
  rewrite (GetFrameData_camera_parsing flags this0 sd ev d k ts c Hf).
  exact Hc.
Qed.

(** X18.  Once [init_] is set it stays set and the renderer is never
    initialized again, over any number of cycles. *)
Theorem run_initialized_stays this cycles :
  init_ this = true ->
  init_ (fst (run flags ProduceSharedDataKey this cycles)) = true /\
  count_init (snd (run flags ProduceSharedDataKey this cycles)) = O.
Proof.
  intros Hinit.
  pose proof (run_trace flags ProduceSharedDataKey this cycles) as Ht.
  destruct (run' this cycles) as [this' tr].
  exact (dispatch_trace_initialized _ _ _ Ht Hinit).
Qed.

(** X19.  An event that takes the motion branch or no branch, does not
    carry the driving identifier and is not subscribed under it, is
    passed over: with its key derived, the loop body makes no call and
    leaves the object exactly as it was. *)
Theorem ProcEvents_event_inert this sd event_meta ev data_key :
  ProduceSharedDataKey (timestamp ev) (reserve ev) = Some data_key ->
  branch_of this ev = MotionBranch \/ branch_of this ev = NoBranch ->
  event_id ev <> vis_driven_event_id_ this ->
  is_driving this event_meta = false ->
  ProcEvents_event' this sd event_meta ev = (inr this, []).
Proof.
  intros Hk Hb Hne Hd.
  rewrite (ProcEvents_event_key_ok flags ProduceSharedDataKey _ _ _ _ _ Hk).
  cbv zeta. unfold is_driving in Hd. rewrite Hd.
  apply Z.eqb_neq in Hne.
  rewrite (GetFrameData_inert flags _ _ _ _ _ _ _ Hb).
  unfold timestamp_updated. rewrite Hne. destruct this; reflexivity.
Qed.

End RunProperties.

(** * The further properties on concrete inputs *)

Import InitScenario.

Lemma InitInternal_succeeds_iff_witness :
  fst (fst (fst initialized)) = InitReturned true.
Proof.
  apply (InitInternal_succeeds_iff flags_on parse_reserve env node0 ptr0).
  split; [|split].
  - exists registry. split; [reflexivity|].
    intros []; intros _; vm_compute; reflexivity.
  - vm_compute. reflexivity.
  - exists reserve_map. split; [reflexivity|].
    intros k Hk. simpl in Hk.
    destruct Hk as [<-|[<-|[<-|[<-|[<-|[]]]]]]; eexists; vm_compute;
      reflexivity.
Defined.

Lemma initialized_returns_true :
  initialized
  = (InitReturned true, snd (fst (fst initialized)), snd (fst initialized),
     snd initialized).
Proof. vm_compute. reflexivity. Defined.

Lemma InitInternal_success_state_witness :
  Ptr.of_store CameraSharedData (snd (fst initialized))
  = Some CameraSharedData /\
  Ptr.frame_visualizer_ (snd (fst initialized)) = Some "GLFusionVisualizer" /\
  camera2car_pose (content_ (snd (fst (fst initialized)))) = extrinsics.
Proof.
  destruct (InitInternal_success_state flags_on parse_reserve env node0 ptr0
              _ _ _ initialized_returns_true)
    as (Hb & _ & Hv & _ & _ & Hc & _).
  split; [|split].
  - apply Hb. reflexivity.
  - exact Hv.
  - exact Hc.
Defined.

Lemma InitInternal_toggle_off_witness :
  let '(_, _, p', tr) :=
    InitInternal flags_radar_only parse_reserve env node0 ptr0 in
  Ptr.of_store FusionSharedData p' = Ptr.of_store FusionSharedData ptr0 /\
  forallb (fun a => negb (is_GetSharedData (store_name FusionSharedData) a))
    tr = true.
Proof.
  apply (InitInternal_toggle_off flags_radar_only parse_reserve env node0 ptr0
           FusionSharedData).
  reflexivity.
Defined.

Lemma InitInternal_missing_store_witness :
  let '(o, this', p', tr) :=
    InitInternal flags_on parse_reserve env_miscast node0 ptr0 in
  o = InitReturned false /\ this' = node0 /\
  Ptr.frame_visualizer_ p' = Ptr.frame_visualizer_ ptr0 /\
  Ptr.camera_to_car_pose_ p' = Ptr.camera_to_car_pose_ ptr0 /\
  forallb (fun a => negb (is_GetInstanceByName a)) tr = true.
Proof.
  apply (InitInternal_missing_store flags_on parse_reserve env_miscast node0
           ptr0 (<["FusionSharedData" := RadarObjectData]> registry)
           FusionSharedData).
  - reflexivity.
  - reflexivity.
  - vm_compute. discriminate.
Defined.

Lemma InitInternal_binds_what_is_read_witness :
  lookups CameraSharedData
    (snd (GetFrameData flags_on (snd (fst (fst initialized))) sd0 camera_ev
            "camera" "camera" 3%float content0)) = 1%nat /\
  Ptr.of_store CameraSharedData (snd (fst initialized))
  = Some CameraSharedData.
Proof.
  split; [vm_compute; reflexivity|].
  destruct (InitInternal_binds_what_is_read flags_on parse_reserve key_of env
              node0 ptr0 _ _ _ initialized_returns_true) as [Hg _].
  apply (Hg sd0 camera_ev "camera" "camera" 3%float content0).
  vm_compute. discriminate.
Defined.

Lemma InitStream_writes_prefix_witness :
  fst (InitStream (parse (delete "camera_event_id" reserve_map)) node_stale)
  = false /\
  stored_id "radar_event_id"
    (snd (InitStream (parse (delete "camera_event_id" reserve_map))
            node_stale))
  = Some 1001 /\
  stored_id "cipv_event_id"
    (snd (InitStream (parse (delete "camera_event_id" reserve_map))
            node_stale))
  = Some 9.
Proof.
  pose proof (InitStream_writes_prefix
                (parse (delete "camera_event_id" reserve_map)) node_stale)
    as H.
  cbn [parse] in H. destruct H as [H _].
  split; [vm_compute; reflexivity|]. split.
  - rewrite (H "radar_event_id") by (simpl; tauto). vm_compute. reflexivity.
  - rewrite (H "cipv_event_id") by (simpl; tauto). vm_compute. reflexivity.
Defined.

Lemma SubscribeEvents_drains_witness :
  SubscribeEvents node0 radar_meta [] em0
  = SubscribeReturns true [radar_front_ev; radar_rear_ev]
      (<[1001 := []]> em0).
Proof.
  rewrite (SubscribeEvents_drains node0 radar_meta [] em0)
    by (vm_compute; discriminate).
  vm_compute. reflexivity.
Defined.

Lemma ProcEvents_fails_iff_underivable_witness :
  fst (fst (fst (ProcEvents flags_on key_of node0 sd0 em0)))
  = Returns Failed_to_proc_events.
Proof.
  apply (ProcEvents_fails_iff_underivable flags_on key_of node0 sd0 em0).
  apply Exists_exists. exists (fusion_meta, unkeyed_ev). split.
  - apply list_elem_of_In. vm_compute. tauto.
  - reflexivity.
Defined.

Lemma ProcEvents_returns_without_driving_witness :
  exists st,
    fst (fst (fst (ProcEvents flags_on key_of node_passive sd0 ∅)))
    = Returns st.
Proof.
  apply (ProcEvents_returns_without_driving flags_on key_of node_passive sd0
           ∅).
  intros m Hm. simpl in Hm.
  destruct Hm as [<-|[<-|[<-|[]]]]; reflexivity.
Defined.

Lemma ProcEvents_render_count_witness :
  length (renders (snd (ProcEvents flags_on key_of node0 sd0 em1))) = 1%nat.
Proof.
  pose proof (ProcEvents_render_count flags_on key_of node0 sd0 em1) as H.
  destruct (ProcEvents flags_on key_of node0 sd0 em1)
    as [[[o this'] em'] tr] eqn:Hp.
  destruct H as [_ H]. simpl. rewrite H; [reflexivity|].
  vm_compute in Hp. injection Hp as <- _ _ _. reflexivity.
Defined.

Lemma ProcEvents_consumes_queues_witness :
  default [] (snd (fst (ProcEvents flags_on key_of node0 sd0 em1)) !! 1001)
  = [].
Proof.
  pose proof (ProcEvents_consumes_queues flags_on key_of node0 sd0 em1) as H.
  destruct (ProcEvents flags_on key_of node0 sd0 em1)
    as [[[o this'] em'] tr] eqn:Hp.
  destruct H as (_ & _ & H). simpl.
  apply (H ltac:(vm_compute in Hp; injection Hp as <- _ _ _; reflexivity)
           radar_meta).
  - simpl. tauto.
  - reflexivity.
Defined.

Lemma GetFrameData_lookups_of_branch_witness :
  branch_reads (branch_of node0 camera_ev) CameraObjectData = true.
Proof.
  destruct (GetFrameData_lookups_of_branch flags_on node0 sd0 camera_ev
              "camera" "camera" 3%float content0) as [H _].
  apply (H CameraObjectData "camera"). vm_compute. tauto.
Defined.

Lemma GetFrameData_field_changes_witness :
  branch_of node0 radar_front_ev = RadarBranch /\
  exists objs,
    payload (radar_object_data_ sd0) "radar_front" = Some objs /\
    radar_content
      (fst (GetFrameData flags_on node0 sd0 radar_front_ev "radar_front"
              "radar_front" 1%float content0))
    = Some (1%float, objects objs).
Proof.
  destruct (GetFrameData_field_changes flags_on node0 sd0 radar_front_ev
              "radar_front" "radar_front" 1%float content0) as [H _].
  destruct H as (Hb & _ & _ & Hx); [vm_compute; discriminate|].
  split; assumption.
Defined.

Lemma GetFrameData_correlates_witness :
  camera_content
    (fst (GetFrameData flags_on node0 sd_full camera_ev "camera" "camera"
            3%float content0))
  = Some (3%float, [1%float], [4; 5]).
Proof.
  destruct (GetFrameData_correlates flags_on node0 sd_full camera_ev "camera"
              "camera" 3%float content0) as (_ & _ & H & _).
  destruct (H eq_refl eq_refl (mkCameraItem [1; 2; 3])
              (mkSensorObjects [4; 5] [1%float] 1)) as [_ Hc];
    [vm_compute; reflexivity | vm_compute; reflexivity |].
  exact (Hc eq_refl).
Defined.

Lemma run_camera_parsing_keeps_detections_witness :
  camera_content (content_ (fst (run flags_parsing key_of node0
                                   [(sd_full, em1); (sd_full, em1)])))
  = None.
Proof.
  apply (run_camera_parsing_keeps_detections flags_parsing key_of node0
           [(sd_full, em1); (sd_full, em1)]).
  reflexivity.
Defined.

Lemma run_initialized_stays_witness :
  init_ (fst (run flags_on key_of node_rendering two_cycles)) = true /\
  count_init (snd (run flags_on key_of node_rendering two_cycles)) = O.
Proof.
  apply (run_initialized_stays flags_on key_of node_rendering two_cycles).
  reflexivity.
Defined.

Lemma ProcEvents_event_inert_witness :
  ProcEvents_event flags_on key_of node_passive sd0 motion_meta motion_ev
  = (inr node_passive, []).
Proof.
  apply (ProcEvents_event_inert flags_on key_of node_passive sd0 motion_meta
           motion_ev "motion").
  - reflexivity.
  - left. reflexivity.
  - vm_compute. discriminate.
  - reflexivity.
Defined.
